(** * Group Availability Planner: the overlap engine of [planner.py]

    A shallow embedding of the data model and of the operations of
    [src/planner.py] (classes [ScheduleCanvas], [OverlapCanvas] and
    [GroupSchedulerApp]), followed by the properties of the specification
    that were checked against it.

    Conventions of the embedding:
    - Python [int] is [Z]; [str] is [string] (a sequence of bytes: only ASCII
      white space and ASCII digits are recognised as such);
    - a [dict] whose iteration order is observable (the participant registry)
      is an association list in insertion order; a [dict] that is only looked
      up, or sorted before use, is a [gmap];
    - an exception is a value of [Py.exn], carried by [Py.result];
    - a Python [float] is the exact rational it approximates (see
      [Py.truediv]);
    - a delimited file is the list of records that the [csv] module is asked
      to write to it, or that it reads from it under a given delimiter; the Tk
      widgets are the fields of the state records, message boxes are returned
      as values. *)

From Stdlib Require Import ZArith QArith Lqa String Ascii List.
From stdpp Require Import base option list list_numbers gmap strings pretty sorting.

Local Open Scope string_scope.
Local Open Scope list_scope.
Local Open Scope Z_scope.

(** ** Python primitives *)

Module Py.

Inductive exn : Type :=
| KeyError (key : string)
| ValueError
| TypeError
| IndexError
| ZeroDivisionError
| OSError.

Inductive result (A : Type) : Type :=
| Ok (a : A)
| Raise (e : exn).
Arguments Ok {A} a.
Arguments Raise {A} e.

#[global] Instance result_ret : MRet result := λ A a, Ok a.
#[global] Instance result_bind : MBind result := λ A B k r,
  match r with
  | Ok a => k a
  | Raise e => Raise e
  end.

(** [str.isspace] on ASCII: TAB, LF, VT, FF, CR, FS, GS, RS, US and SPACE. *)
Definition is_space (c : ascii) : bool :=
  let n := Z.of_N (N_of_ascii c) in
  ((9 <=? n) && (n <=? 13)) || ((28 <=? n) && (n <=? 32)).

Fixpoint lstrip (s : string) : string :=
  match s with
  | EmptyString => EmptyString
  | String c s' => if is_space c then lstrip s' else s
  end.

Fixpoint rstrip (s : string) : string :=
  match s with
  | EmptyString => EmptyString
  | String c s' =>
      match rstrip s' with
      | EmptyString => if is_space c then EmptyString else String c EmptyString
      | r => String c r
      end
  end.

(** [s.strip()] *)
Definition strip (s : string) : string := rstrip (lstrip s).

(** [str(n)] for an [int]. *)
Definition str (n : Z) : string := pretty n.

Definition digit_of (c : ascii) : option Z :=
  let n := Z.of_N (N_of_ascii c) in
  if (48 <=? n) && (n <=? 57) then Some (n - 48) else None.

(** The digits of a decimal literal: at least one digit, single
    underscores allowed between digits. *)
Fixpoint int_digits (acc : Z) (after_digit : bool) (s : string) : option Z :=
  match s with
  | EmptyString => if after_digit then Some acc else None
  | String c s' =>
      match digit_of c with
      | Some d => int_digits (10 * acc + d) true s'
      | None =>
          if after_digit && bool_decide (c = "_"%char)
          then int_digits acc false s'
          else None
      end
  end.

(** [int(s)] for a [str]: white space around the literal is dropped, a
    sign may precede the digits; anything else is a [ValueError]. *)
Definition int (s : string) : result Z :=
  let literal :=
    match strip s with
    | String "+"%char r => int_digits 0 false r
    | String "-"%char r => Z.opp <$> int_digits 0 false r
    | r => int_digits 0 false r
    end in
  match literal with
  | Some n => Ok n
  | None => Raise ValueError
  end.

(** [int(v)] where [v] is a [str] or [None]. *)
Definition int_of_value (v : option string) : result Z :=
  match v with
  | Some s => int s
  | None => Raise TypeError
  end.

(** [l[i]] on a list: negative indices count from the end. *)
Definition getitem {A} (l : list A) (i : Z) : result A :=
  let n := Z.of_nat (length l) in
  let j := if i <? 0 then i + n else i in
  if (0 <=? j) && (j <? n)
  then match l !! Z.to_nat j with
       | Some x => Ok x
       | None => Raise IndexError
       end
  else Raise IndexError.

(** [range(a, b)] *)
Definition range (a b : Z) : list Z := seqZ a (b - a).

(** [s.split(sep)[0]] for a separator that is not empty: the part of [s]
    before the first occurrence of [sep], all of [s] when there is none. *)
Fixpoint split_first (sep s : string) : string :=
  if String.prefix sep s then EmptyString
  else match s with
       | EmptyString => EmptyString
       | String c s' => String c (split_first sep s')
       end.

(** [sep in s] *)
Fixpoint occurs (sep s : string) : bool :=
  String.prefix sep s
  || match s with
     | EmptyString => false
     | String _ s' => occurs sep s'
     end.

(** [s.endswith(suffix)] *)
Fixpoint endswith (s suffix : string) : bool :=
  bool_decide (s = suffix)
  || match s with
     | EmptyString => false
     | String _ s' => endswith s' suffix
     end.

(** [a / b] on two [int]s.  Python returns the binary64 value nearest to
    the quotient; the embedding keeps the quotient itself.  The results of
    [planner.py] are compared with 0.25, 0.5, 0.75 and 1.0 only, which are
    binary64 values: rounding to nearest is monotone and leaves them fixed,
    and a quotient [a / b] different from such a threshold is at least
    [1 / (4 * b)] away from it, so for [b < 2 ^ 52] every one of these
    comparisons has the same outcome on the rounded and on the exact
    quotient. *)
Definition truediv (a b : Z) : result Q :=
  if b =? 0 then Raise ZeroDivisionError
  else Ok (inject_Z a / inject_Z b)%Q.

(** An insertion-ordered [dict] with keys [K]. *)
Section dict.
Context {K V : Type} `{EqDecision K}.

Definition dict : Type := list (K * V).

Fixpoint get (d : dict) (k : K) : option V :=
  match d with
  | [] => None
  | (k', v) :: d' => if decide (k' = k) then Some v else get d' k
  end.

(** [k in d] *)
Definition contains (d : dict) (k : K) : bool := bool_decide (is_Some (get d k)).

(** [d[k] = v]: an existing key keeps its position, a new one goes last. *)
Fixpoint setitem (d : dict) (k : K) (v : V) : dict :=
  match d with
  | [] => [(k, v)]
  | (k', v') :: d' =>
      if decide (k' = k) then (k', v) :: d' else (k', v') :: setitem d' k v
  end.

Definition keys (d : dict) : list K := d.*1.
End dict.
Arguments dict : clear implicits.

End Py.

(** ** The grid *)

(** A grid coordinate [(day, hour)], a Python tuple of two [int]s. *)
Abbreviation cell := (Z * Z)%type.

(** The order of Python tuples, used by [sorted] and [list.sort]. *)
Definition cell_le (a b : cell) : Prop :=
  a.1 < b.1 ∨ (a.1 = b.1 ∧ a.2 ≤ b.2).
Definition cell_lt (a b : cell) : Prop :=
  a.1 < b.1 ∨ (a.1 = b.1 ∧ a.2 < b.2).

#[global] Instance cell_le_dec : RelDecision cell_le.
Proof. intros a b. unfold cell_le. apply _. Defined.
#[global] Instance cell_lt_dec : RelDecision cell_lt.
Proof. intros a b. unfold cell_lt. apply _. Defined.

(** [sorted(cells)] *)
Definition sorted (cells : list cell) : list cell := merge_sort cell_le cells.

(** ** class ScheduleCanvas *)

Module ScheduleCanvas.

Definition DAYS : list string :=
  ["Monday"; "Tuesday"; "Wednesday"; "Thursday"; "Friday"; "Saturday"; "Sunday"].
Definition START_HOUR : Z := 9.
(** Ends at 20, meaning the last slot is 19:00-20:00. *)
Definition END_HOUR : Z := 20.

Definition cell_width : Z := 100.
Definition cell_height : Z := 40.
Definition header_height : Z := 30.
Definition time_width : Z := 60.

Inductive mode : Type := select | deselect.

(** The fields of the widget that the handlers read and write;
    [schedule] is [{(day_index, hour): True}]. *)
Record t : Type := mk {
  editable : bool;
  schedule : gmap cell bool;
  drag_start : option cell;
  drag_current : option cell;
  drag_mode : option mode
}.

Definition init (editable : bool) : t :=
  mk editable ∅ None None None.

(** A cell of the grid: what [get_cell_at] can return. *)
Definition in_grid (c : cell) : Prop :=
  0 ≤ c.1 < Z.of_nat (length DAYS) ∧ START_HOUR ≤ c.2 < END_HOUR.

Definition get_cell_at (x y : Z) : option cell :=
  if (x <? time_width) || (y <? header_height) then None
  else
    let day := (x - time_width) `div` cell_width in
    let hour := (y - header_height) `div` cell_height + START_HOUR in
    if (0 <=? day) && (day <? Z.of_nat (length DAYS))
       && (START_HOUR <=? hour) && (hour <? END_HOUR)
    then Some (day, hour)
    else None.

(** [self.schedule.get(cell)] used as a condition. *)
Definition selected (w : t) (c : cell) : bool :=
  match schedule w !! c with
  | Some b => b
  | None => false
  end.

Definition on_mouse_down (w : t) (x y : Z) : t :=
  if negb (editable w) then w
  else match get_cell_at x y with
       | Some c =>
           mk (editable w) (schedule w) (Some c) (Some c)
              (Some (if selected w c then deselect else select))
       | None => w
       end.

Definition on_mouse_drag (w : t) (x y : Z) : t :=
  match editable w, drag_start w with
  | true, Some start =>
      match get_cell_at x y with
      | Some c =>
          if bool_decide (c.1 = start.1)
          then mk (editable w) (schedule w) (drag_start w) (Some c) (drag_mode w)
          else w
      | None => w
      end
  | _, _ => w
  end.

(** The body of the [for hour in range(start_hour, end_hour + 1)] loop. *)
Definition apply_mode (m : option mode) (day : Z)
    (sched : gmap cell bool) (hour : Z) : gmap cell bool :=
  match m with
  | Some select => <[(day, hour) := true]> sched
  | _ => delete (day, hour) sched
  end.

Definition on_mouse_up (w : t) : t :=
  match editable w, drag_start w with
  | true, Some start =>
      let sched :=
        match drag_current w with
        | Some current =>
            let day := start.1 in
            let start_hour := Z.min start.2 current.2 in
            let end_hour := Z.max start.2 current.2 in
            foldl (apply_mode (drag_mode w) day) (schedule w)
                  (Py.range start_hour (end_hour + 1))
        | None => schedule w
        end in
      mk (editable w) sched None None None
  | _, _ => w
  end.

Definition clear_schedule (w : t) : t :=
  mk (editable w) ∅ (drag_start w) (drag_current w) (drag_mode w).

(** [sorted(self.schedule.keys())]: the keys are distinct and the order of
    tuples is total, so the result does not depend on the order in which the
    [dict] lists them. *)
Definition get_schedule_data (w : t) : list cell :=
  sorted (map_to_list (schedule w)).*1.

(** [{cell: True for cell in data}] *)
Definition set_schedule_data (w : t) (data : list cell) : t :=
  mk (editable w) (foldl (λ d c, <[c := true]> d) ∅ data)
     (drag_start w) (drag_current w) (drag_mode w).

(** A click on one cell: button pressed and released at the same pixel. *)
Definition click (w : t) (x y : Z) : t := on_mouse_up (on_mouse_down w x y).

(** The top left pixel of a cell. *)
Definition pixel_of (c : cell) : Z * Z :=
  (time_width + c.1 * cell_width, header_height + (c.2 - START_HOUR) * cell_height).

(** Toggling a coordinate is a click inside its cell. *)
Definition toggle (w : t) (c : cell) : t :=
  click w (pixel_of c).1 (pixel_of c).2.

(** What the user can do to an editable canvas. *)
Inductive event : Type :=
| MouseDown (x y : Z)
| MouseDrag (x y : Z)
| MouseUp
| ClearAll.

Definition handle (w : t) (e : event) : t :=
  match e with
  | MouseDown x y => on_mouse_down w x y
  | MouseDrag x y => on_mouse_drag w x y
  | MouseUp => on_mouse_up w
  | ClearAll => clear_schedule w
  end.

(** The rectangle [(x1, y1, x2, y2)] that [draw_grid] draws for a cell. *)
Definition cell_rectangle (c : cell) : Z * Z * Z * Z :=
  let x := time_width + c.1 * cell_width in
  let y := header_height + (c.2 - START_HOUR) * cell_height in
  (x, y, x + cell_width, y + cell_height).

(** The cells that [draw_grid] draws, in the order of its two loops: the
    rectangle of each cell and its fill colour. *)
Definition draw_cells (w : t) : list (Z * Z * Z * Z * string) :=
  hour ← Py.range START_HOUR END_HOUR;
  day ← Py.range 0 (Z.of_nat (length DAYS));
  [(cell_rectangle (day, hour),
    if selected w (day, hour) then "#4CAF50" else "white")].

End ScheduleCanvas.

(** ** class OverlapCanvas *)

Module OverlapCanvas.

(** [overlap_counts] is [{(day, hour): count}]. *)
Record t : Type := mk {
  overlap_counts : gmap cell Z;
  total_participants : Z
}.

Definition init : t := mk ∅ 0.

Definition set_overlaps (counts : gmap cell Z) (total : Z) : t := mk counts total.

(** [self.overlap_counts.get((day, hour), 0)] *)
Definition count_at (w : t) (c : cell) : Z := default 0 (overlap_counts w !! c).

Definition get_color_for_count (w : t) (count : Z) : Py.result string :=
  if count =? 0 then mret "white"
  else if total_participants w =? 0 then mret "white"
  else
    ratio ← Py.truediv count (total_participants w);
    if Qeq_bool ratio 1 then mret "#1B5E20"
    else if Qle_bool (3 # 4) ratio then mret "#4CAF50"
    else if Qle_bool (1 # 2) ratio then mret "#8BC34A"
    else if Qle_bool (1 # 4) ratio then mret "#FFEB3B"
    else mret "#FFCDD2".

Definition cell_width : Z := 100.
Definition cell_height : Z := 40.
Definition header_height : Z := 30.
Definition time_width : Z := 60.

(** The colour of the count written in a cell:
    ['white' if count / max(self.total_participants, 1) >= 0.5 else 'black']. *)
Definition text_fill (w : t) (count : Z) : Py.result string :=
  ratio ← Py.truediv count (Z.max (total_participants w) 1);
  mret (if Qle_bool (1 # 2) ratio then "white" else "black").

(** What [draw_grid] draws for one cell: the rectangle, its fill colour and,
    when the count is positive, the count and the colour it is written in. *)
Definition draw_cell (w : t) (c : cell)
    : Py.result (Z * Z * Z * Z * string * option (string * string)) :=
  let x := time_width + c.1 * cell_width in
  let y := header_height + (c.2 - ScheduleCanvas.START_HOUR) * cell_height in
  let count := count_at w c in
  color ← get_color_for_count w count;
  text ← (if 0 <? count
          then fill ← text_fill w count; mret (Some (Py.str count, fill))
          else mret None);
  mret ((x, y, x + cell_width, y + cell_height), color, text).

Fixpoint draw_cells_from (w : t) (cells : list cell)
    : Py.result (list (Z * Z * Z * Z * string * option (string * string))) :=
  match cells with
  | [] => mret []
  | c :: cells' =>
      item ← draw_cell w c;
      items ← draw_cells_from w cells';
      mret (item :: items)
  end.

(** The cells of [draw_grid], in the order of its two loops. *)
Definition draw_cells (w : t)
    : Py.result (list (Z * Z * Z * Z * string * option (string * string))) :=
  draw_cells_from w
    (hour ← Py.range ScheduleCanvas.START_HOUR ScheduleCanvas.END_HOUR;
     day ← Py.range 0 (Z.of_nat (length ScheduleCanvas.DAYS));
     [(day, hour)]).

End OverlapCanvas.

(** ** The [csv] module, at the level of records *)

Module Csv.

(** The fields of one line, as [csv.reader] yields them and as
    [csv.writer.writerow] receives them (after [str] of each value). *)
Abbreviation record := (list string).

(** A row of [csv.DictReader]: [dict(zip(fieldnames, row))], then [None]
    under every field name that the row is too short for.  Fields beyond
    the header go under the key [None], which no lookup of [planner.py]
    asks for. *)
Fixpoint dict_row (fieldnames : list string) (row : record)
    (d : Py.dict string (option string)) : Py.dict string (option string) :=
  match fieldnames with
  | [] => d
  | name :: names => dict_row names (tail row) (Py.setitem d name (head row))
  end.

(** The rows of [csv.DictReader(f)]: the first record is the header, empty
    records (blank lines) are skipped. *)
Definition DictReader (records : list record) : list (Py.dict string (option string)) :=
  match records with
  | [] => []
  | fieldnames :: rows =>
      (λ row, dict_row fieldnames row []) <$> filter (λ row, row ≠ []) rows
  end.

(** The two delimiters that [planner.py] uses. *)
Definition tab : ascii := "009"%char.
Definition comma : ascii := ","%char.

(** The fields of a record with a tab between them. *)
Fixpoint join_tab (row : record) : string :=
  match row with
  | [] => EmptyString
  | [field] => field
  | field :: row' => field +:+ String tab (join_tab row')
  end.

(** What [csv.reader] yields, under [delimiter], from a file that
    [csv.writer(f, delimiter='\t')] wrote from [records]: the records
    themselves under a tab; under another delimiter every line that was
    written is one field.  (The second case is exact as long as no field
    holds that delimiter, a quote or a line break.) *)
Definition written_with_tabs (records : list record) (delimiter : ascii)
    : list record :=
  if decide (delimiter = tab) then records
  else (λ row, match row with [] => [] | _ => [join_tab row] end) <$> records.

End Csv.

(** ** class GroupSchedulerApp *)

Module GroupSchedulerApp.

(** What the user is shown: the three kinds of message box, and the
    traceback that Tk prints when a callback raises. *)
Inductive report : Type :=
| showwarning (message : string)
| showerror (message : string) (e : Py.exn)
| showinfo (message : string)
| traceback (e : Py.exn).

Record t : Type := mk {
  name_entry : string;
  schedule_canvas : ScheduleCanvas.t;
  (** [{username: [(day, hour), ...]}] *)
  loaded_schedules : Py.dict string (list cell);
  loaded_listbox : list string;
  overlap_canvas : OverlapCanvas.t;
  lbl_part_count : string;
  lbl_match_count : string;
  tree : list (string * string)
}.

Definition init : t :=
  mk "John" (ScheduleCanvas.init true) [] [] OverlapCanvas.init "0" "0" [].

(** A file picked in a dialog: its name and, when it can be opened, the
    records that [csv.reader] yields from it under a delimiter. *)
Abbreviation file := (string * option (ascii → list Csv.record))%type.

Fixpoint has_slash (p : string) : bool :=
  match p with
  | EmptyString => false
  | String c p' => bool_decide (c = "/"%char) || has_slash p'
  end.

(** [os.path.basename] *)
Fixpoint basename (p : string) : string :=
  match p with
  | EmptyString => EmptyString
  | String c p' => if has_slash p then basename p' else p
  end.

(** [row[key]] *)
Definition row_item (row : Py.dict string (option string)) (key : string)
    : Py.result (option string) :=
  match Py.get row key with
  | Some v => mret v
  | None => Py.Raise (Py.KeyError key)
  end.

(** The body of [for row in reader]; [username] is [None] until a row
    gives it a value. *)
Definition read_row (filename : string)
    (acc : option string * list cell) (row : Py.dict string (option string))
    : Py.result (option string * list cell) :=
  let username :=
    match acc.1 with
    | None => default (Some (basename filename)) (Py.get row "username")
    | Some name => Some name
    end in
  day_field ← row_item row "day";
  day ← Py.int_of_value day_field;
  hour_field ← row_item row "hour";
  hour ← Py.int_of_value hour_field;
  mret (username, acc.2 ++ [(day, hour)]).

Fixpoint read_rows (filename : string) (acc : option string * list cell)
    (rows : list (Py.dict string (option string)))
    : Py.result (option string * list cell) :=
  match rows with
  | [] => mret acc
  | row :: rows' =>
      acc' ← read_row filename acc row;
      read_rows filename acc' rows'
  end.

(** ['\t' if filename.endswith('.tsv') else ','] *)
Definition delimiter (filename : string) : ascii :=
  if Py.endswith filename ".tsv" then Csv.tab else Csv.comma.

(** Opening and reading one file. *)
Definition read_file (f : file) : Py.result (option string * list cell) :=
  match f.2 with
  | None => Py.Raise Py.OSError
  | Some records =>
      read_rows f.1 (None, []) (Csv.DictReader (records (delimiter f.1)))
  end.

(** The loop [while username in self.loaded_schedules], entered with
    [counter]; [None] when [fuel] iterations do not end it. *)
Fixpoint free_username (fuel : nat) (loaded : Py.dict string (list cell))
    (base_username username : string) (counter : Z) : option string :=
  if Py.contains loaded username then
    match fuel with
    | O => None
    | S fuel' =>
        free_username fuel' loaded base_username
          (base_username +:+ "_" +:+ Py.str counter) (counter + 1)
    end
  else Some username.

(** One iteration of [for filename in filenames].  The [while] loop ends
    within [length loaded] iterations ([free_username_fuel] below), so the
    last case does not occur. *)
Definition load_file (a : t) (f : file) : t * list report :=
  match read_file f with
  | Py.Raise e => (a, [showerror ("Failed to load " +:+ f.1) e])
  | Py.Ok (username, sched) =>
      match username, sched with
      | None, _ | Some EmptyString, _ | _, [] => (a, [])
      | Some name, _ =>
          match free_username (length (loaded_schedules a))
                  (loaded_schedules a) name name 1 with
          | Some username' =>
              (mk (name_entry a) (schedule_canvas a)
                  (Py.setitem (loaded_schedules a) username' sched)
                  (loaded_listbox a ++
                     [username' +:+ " (" +:+ Py.str (Z.of_nat (length sched)) +:+ " slots)"])
                  (overlap_canvas a) (lbl_part_count a) (lbl_match_count a) (tree a),
               [])
          | None => (a, [])
          end
      end
  end.

Fixpoint load_files (a : t) (files : list file) : t * list report :=
  match files with
  | [] => (a, [])
  | f :: files' =>
      let '(a1, r1) := load_file a f in
      let '(a2, r2) := load_files a1 files' in
      (a2, r1 ++ r2)
  end.

(** The counting loop of [update_overlaps] and of [export_analysis]. *)
Definition count_cell (counts : gmap cell Z) (c : cell) : gmap cell Z :=
  <[c := default 0 (counts !! c) + 1]> counts.

Definition count_overlaps (loaded : Py.dict string (list cell)) : gmap cell Z :=
  foldl (λ counts entry, foldl count_cell counts entry.2) ∅ loaded.

(** [[cell for cell, count in overlap_counts.items() if count == total]],
    then [.sort()]. *)
Definition full_overlap_slots (counts : gmap cell Z) (total : Z) : list cell :=
  sorted (filter (λ item, item.2 = total) (map_to_list counts)).*1.

(** [f"{hour:02d}"] *)
Definition format_02d (n : Z) : string :=
  if (0 <=? n) && (n <? 10) then "0" +:+ Py.str n else Py.str n.

(** The loop that fills the tree view; it stops at the first slot whose
    day is not an index of [DAYS]. *)
Fixpoint insert_slots (rows : list (string * string)) (slots : list cell)
    : list (string * string) * option Py.exn :=
  match slots with
  | [] => (rows, None)
  | (day, hour) :: slots' =>
      match Py.getitem ScheduleCanvas.DAYS day with
      | Py.Ok day_name =>
          insert_slots (rows ++ [(day_name, format_02d hour +:+ ":00")]) slots'
      | Py.Raise e => (rows, Some e)
      end
  end.

Definition update_overlaps (a : t) : t * list report :=
  match loaded_schedules a with
  | [] => (a, [])
  | _ =>
      let overlap_counts := count_overlaps (loaded_schedules a) in
      let total := Z.of_nat (length (loaded_schedules a)) in
      let slots := full_overlap_slots overlap_counts total in
      let '(rows, raised) := insert_slots [] slots in
      (mk (name_entry a) (schedule_canvas a) (loaded_schedules a) (loaded_listbox a)
          (OverlapCanvas.set_overlaps overlap_counts total)
          (Py.str total) (Py.str (Z.of_nat (length slots))) rows,
       match raised with
       | Some e => [traceback e]
       | None => []
       end)
  end.

Definition load_schedules (a : t) (files : list file) : t * list report :=
  match files with
  | [] => (a, [])
  | _ =>
      let '(a1, r1) := load_files a files in
      let '(a2, r2) := update_overlaps a1 in
      (a2, r1 ++ r2)
  end.

Definition clear_loaded_schedules (a : t) : t :=
  mk (name_entry a) (schedule_canvas a) [] []
     (OverlapCanvas.set_overlaps ∅ 0) "0" "0" [].

(** The line feed of the message texts. *)
Definition nl : string := String "010"%char EmptyString.



(** [f"{pct:.1f}"]: one decimal, ties to even.  [pct] stands for a binary64
    value (see [Py.truediv]); the digits are those of the exact quotient
    unless the rounding error of the binary64 operations moves the value
    across a decimal tie. *)
Definition format_1f (pct : Q) : string :=
  let scaled := Z.abs (Qnum pct) * 10 in
  let den := Z.pos (Qden pct) in
  let q := scaled `div` den in
  let r := scaled `mod` den in
  let tenths :=
    if 2 * r <? den then q
    else if den <? 2 * r then q + 1
    else if Z.even q then q else q + 1 in
  (if Qnum pct <? 0 then "-" else "")
    +:+ Py.str (tenths `div` 10) +:+ "." +:+ Py.str (tenths `mod` 10).

(** The record that [export_analysis] writes for one cell. *)
Definition analysis_row (overlap_counts : gmap cell Z) (total : Z)
    (c : cell) : Py.result Csv.record :=
  let count := default 0 (overlap_counts !! c) in
  pct ← (if 0 <? total
         then ratio ← Py.truediv count total; mret (ratio * 100)%Q
         else mret 0%Q);
  day_name ← Py.getitem ScheduleCanvas.DAYS c.1;
  mret [Py.str c.1; day_name; Py.str c.2; Py.str count; Py.str total;
        format_1f pct +:+ "%"].

Fixpoint write_analysis (written : list Csv.record)
    (overlap_counts : gmap cell Z) (total : Z) (cells : list cell)
    : list Csv.record * option Py.exn :=
  match cells with
  | [] => (written, None)
  | c :: cells' =>
      match analysis_row overlap_counts total c with
      | Py.Ok row => write_analysis (written ++ [row]) overlap_counts total cells'
      | Py.Raise e => (written, Some e)
      end
  end.

(** [for day in range(7): for hour in range(START_HOUR, END_HOUR)] *)
Definition grid_cells : list cell :=
  day ← Py.range 0 7;
  hour ← Py.range ScheduleCanvas.START_HOUR ScheduleCanvas.END_HOUR;
  [(day, hour)].

Definition analysis_header : Csv.record :=
  ["day"; "day_name"; "hour"; "available_count"; "total_participants"; "percentage"].

Definition export_analysis (a : t) (filename : string)
    : list report * option (string * list Csv.record) :=
  match loaded_schedules a with
  | [] => ([showwarning "No schedules loaded."], None)
  | _ =>
      if bool_decide (filename = "") then ([], None)
      else
        let overlap_counts := count_overlaps (loaded_schedules a) in
        let total := Z.of_nat (length (loaded_schedules a)) in
        match write_analysis [analysis_header] overlap_counts total grid_cells with
        | (written, None) =>
            ([showinfo ("Analysis exported to:" +:+ nl +:+ filename)],
             Some (filename, written))
        | (written, Some e) =>
            ([showerror "Failed to export" e], Some (filename, written))
        end
  end.

(** The window that [show_participant_popup] opens: its title, its heading
    and its canvas, which cannot be edited. *)
Record popup : Type := mk_popup {
  title : string;
  heading : string;
  p_canvas : ScheduleCanvas.t
}.

Definition show_participant_popup (username : string)
    (schedule_data : list cell) : popup :=
  mk_popup ("Schedule: " +:+ username) ("Availability for " +:+ username)
    (ScheduleCanvas.set_schedule_data (ScheduleCanvas.init false) schedule_data).

(** [selection] is the line that is selected in the list box, if any; the
    result is the window that opens, if any. *)
Definition on_participant_selected (a : t) (selection : option nat)
    : option popup :=
  match selection with
  | None => None
  | Some index =>
      let item_text := default "" (loaded_listbox a !! index) in
      let username := Py.split_first " (" item_text in
      match Py.get (loaded_schedules a) username with
      | Some schedule_data => Some (show_participant_popup username schedule_data)
      | None => None
      end
  end.

(** What the user can do in a session. *)
Inductive action : Type :=
| EditName (text : string)
| Canvas (e : ScheduleCanvas.event)
| LoadFiles (files : list file)
| ClearLoaded.

Definition set_name (a : t) (text : string) : t :=
  mk text (schedule_canvas a) (loaded_schedules a) (loaded_listbox a)
     (overlap_canvas a) (lbl_part_count a) (lbl_match_count a) (tree a).

Definition set_canvas (a : t) (w : ScheduleCanvas.t) : t :=
  mk (name_entry a) w (loaded_schedules a) (loaded_listbox a)
     (overlap_canvas a) (lbl_part_count a) (lbl_match_count a) (tree a).

Definition step (a : t) (act : action) : t :=
  match act with
  | EditName text => set_name a text
  | Canvas e => set_canvas a (ScheduleCanvas.handle (schedule_canvas a) e)
  | LoadFiles files => (load_schedules a files).1
  | ClearLoaded => clear_loaded_schedules a
  end.

(** The state after a session. *)
Definition run (acts : list action) : t := foldl step init acts.

End GroupSchedulerApp.

(** ** Coverage bands *)

(** The bands of the specification, named after the entries of the legend
    of [create_overlap_tab]: [FULL] is "All Available", [HIGH] "75%+",
    [MEDIUM] "50%+", [LOW] "25%+", [MINIMAL] "<25%"; [NONE] is a cell left
    white. *)
Inductive CoverageBand : Type := NONE | MINIMAL | LOW | MEDIUM | HIGH | FULL.

Definition band_color (b : CoverageBand) : string :=
  match b with
  | NONE => "white"
  | MINIMAL => "#FFCDD2"
  | LOW => "#FFEB3B"
  | MEDIUM => "#8BC34A"
  | HIGH => "#4CAF50"
  | FULL => "#1B5E20"
  end.

(** ** Predicates on states *)

(** Every value stored in the [dict] of a schedule canvas is [True]. *)
Definition all_true (w : ScheduleCanvas.t) : Prop :=
  ∀ c b, ScheduleCanvas.schedule w !! c = Some b → b = true.


(** How many times a schedule lists a cell, and how many times the
    schedules of a registry list it altogether. *)
Definition occurrences (c : cell) (sched : list cell) : nat :=
  length (filter (λ c', c' = c) sched).

Definition listed (loaded : Py.dict string (list cell)) (c : cell) : nat :=
  sum_list_with (λ entry, occurrences c entry.2) loaded.

(** The name tried by the [counter]-th iteration of the renaming loop. *)
Definition candidate (base_username : string) (counter : Z) : string :=
  base_username +:+ "_" +:+ Py.str counter.

(** The names of the registry are distinct, none is empty and no schedule
    is empty. *)
Definition registry_ok (loaded : Py.dict string (list cell)) : Prop :=
  NoDup (Py.keys loaded)
  ∧ ∀ name sched, (name, sched) ∈ loaded → name ≠ "" ∧ sched ≠ [].

(** The overlap canvas and the two counters show the tally of the
    registry. *)
Definition display_ok (a : GroupSchedulerApp.t) : Prop :=
  let loaded := GroupSchedulerApp.loaded_schedules a in
  let total := Z.of_nat (length loaded) in
  let counts := GroupSchedulerApp.count_overlaps loaded in
  GroupSchedulerApp.overlap_canvas a = OverlapCanvas.mk counts total
  ∧ GroupSchedulerApp.lbl_part_count a = Py.str total
  ∧ GroupSchedulerApp.lbl_match_count a
    = Py.str (Z.of_nat (length (GroupSchedulerApp.full_overlap_slots counts total))).

Definition consistent (a : GroupSchedulerApp.t) : Prop :=
  display_ok a ∧ registry_ok (GroupSchedulerApp.loaded_schedules a).

(** The line of the list box for an entry of the registry. *)
Definition listbox_line (entry : string * list cell) : string :=
  entry.1 +:+ " (" +:+ Py.str (Z.of_nat (length entry.2)) +:+ " slots)".

(** The name under which the [i]-th file that asks for [base_username] is
    registered. *)
Definition nth_name (base_username : string) (i : nat) : string :=
  if decide (i = 0%nat) then base_username
  else candidate base_username (Z.of_nat i).

(** The days that [DAYS[day]] accepts: Python counts a negative index from
    the end of the list. *)
Definition day_index_ok (c : cell) : Prop := -7 ≤ c.1 < 7.

(** The row of the tree of perfect matches for a cell. *)
Definition tree_row (c : cell) : string * string :=
  (default "" (ScheduleCanvas.DAYS !! Z.to_nat (c.1 `mod` 7)),
   GroupSchedulerApp.format_02d c.2 +:+ ":00").


(** The data row of the analysis export as the specification words it: the
    day, its name, the hour, the count, the total and the percentage
    [count / total * 100] with one decimal and a [%] sign. *)
Definition analysis_record (count total : Z) (c : cell) : Csv.record :=
  [Py.str c.1; default "" (ScheduleCanvas.DAYS !! Z.to_nat c.1); Py.str c.2;
   Py.str count; Py.str total;
   GroupSchedulerApp.format_1f (inject_Z count / inject_Z total * 100)%Q +:+ "%"].

(** * Properties *)

(** Boolean tests on integers, turned into the facts they decide. *)
Ltac zbool :=
  repeat match goal with
  | H : _ |- _ =>
      first [ rewrite andb_true_iff in H | rewrite andb_false_iff in H
            | rewrite orb_true_iff in H | rewrite orb_false_iff in H
            | rewrite Z.ltb_lt in H | rewrite Z.ltb_ge in H
            | rewrite Z.leb_le in H | rewrite Z.leb_gt in H
            | rewrite Z.eqb_eq in H | rewrite Z.eqb_neq in H ]
  end.

(** ** The schedule canvas *)

Section schedule_canvas.
Import ScheduleCanvas.

Lemma get_cell_at_in_grid x y c : get_cell_at x y = Some c → in_grid c.
Proof.
  unfold get_cell_at, in_grid, START_HOUR, END_HOUR.
  change (Z.of_nat (length DAYS)) with 7.
  repeat case_match; intros; simplify_eq/=; zbool; lia.
Qed.

Lemma get_cell_at_pixel_of c :
  get_cell_at (pixel_of c).1 (pixel_of c).2
  = if decide (in_grid c) then Some c else None.
Proof.
  destruct c as [day hour].
  unfold get_cell_at, pixel_of, in_grid, time_width, header_height,
    cell_width, cell_height, START_HOUR, END_HOUR; simpl.
  replace (60 + day * 100 - 60) with (day * 100) by lia.
  replace (30 + (hour - 9) * 40 - 30) with ((hour - 9) * 40) by lia.
  rewrite !Z.div_mul by lia.
  replace (hour - 9 + 9) with hour by lia.
  change (Z.of_nat (length DAYS)) with 7.
  case_decide as Hg; repeat case_match; try done; zbool; simpl in *; lia.
Qed.

Lemma click_schedule w x y c :
  editable w = true → get_cell_at x y = Some c →
  schedule (click w x y)
  = if selected w c then delete c (schedule w) else <[c := true]> (schedule w).
Proof.
  intros He Hc. unfold click, on_mouse_down. rewrite He, Hc. simpl.
  destruct c as [day hour]. simpl.
  rewrite Z.min_id, Z.max_id. unfold Py.range.
  replace (hour + 1 - hour) with 1 by lia.
  rewrite seqZ_cons, seqZ_nil by lia. simpl.
  by destruct (selected w (day, hour)).
Qed.

Lemma click_outside w x y :
  get_cell_at x y = None → click w x y = on_mouse_up w.
Proof.
  intros Hc. unfold click, on_mouse_down. rewrite Hc. by destruct (editable w).
Qed.

Lemma toggle_schedule w c :
  editable w = true → in_grid c →
  schedule (toggle w c)
  = if selected w c then delete c (schedule w) else <[c := true]> (schedule w).
Proof.
  intros He Hg. unfold toggle. apply click_schedule; [done|].
  rewrite get_cell_at_pixel_of. by rewrite decide_True.
Qed.

Lemma toggle_editable w c : editable (toggle w c) = editable w.
Proof.
  unfold toggle, click, on_mouse_down, on_mouse_up.
  destruct (editable w) eqn:He; simpl; [|by rewrite He].
  destruct (get_cell_at _ _); simpl; rewrite ?He; [done|].
  by destruct (drag_start w).
Qed.

(** What a drag over [hours] of one day leaves in the [dict]. *)
Lemma lookup_apply_mode m day hours sched c :
  foldl (apply_mode m day) sched hours !! c
  = if decide (c.1 = day ∧ c.2 ∈ hours)
    then match m with Some select => Some true | _ => None end
    else sched !! c.
Proof.
  revert sched. induction hours as [|h hours IH]; intros sched; simpl.
  { rewrite decide_False; [done|]. intros [_ Hin]. by apply elem_of_nil in Hin. }
  rewrite IH. destruct (decide (c.2 ∈ hours)) as [Hin|Hin].
  - destruct (decide (c.1 = day)) as [Hd|Hd].
    + rewrite !decide_True; [done|..]; split; try done. by apply elem_of_cons; right.
    + rewrite !decide_False by tauto. unfold apply_mode.
      destruct m as [[]|];
        [rewrite lookup_insert_ne|rewrite lookup_delete_ne..]; try done;
        intros Heq; apply Hd; by rewrite <- Heq.
  - rewrite decide_False by tauto.
    destruct (decide (c = (day, h))) as [->|Hne].
    + rewrite decide_True by (split; [done|by apply elem_of_cons; left]).
      unfold apply_mode. destruct m as [[]|];
        [apply lookup_insert_eq|apply lookup_delete_eq..].
    + rewrite decide_False.
      * unfold apply_mode. destruct m as [[]|];
          [by rewrite lookup_insert_ne|by rewrite lookup_delete_ne..].
      * intros [Hd Hh]. apply elem_of_cons in Hh as [Hh|Hh]; [|done].
        apply Hne. destruct c; simpl in *; by subst.
Qed.

Lemma toggle_read_only w c : editable w = false → toggle w c = w.
Proof.
  intros He. unfold toggle, click, on_mouse_down. rewrite He. simpl.
  unfold on_mouse_up. by rewrite He.
Qed.

Lemma handle_all_true w e : all_true w → all_true (handle w e).
Proof.
  intros Hw. destruct e as [x y|x y| |]; simpl.
  - unfold on_mouse_down. repeat case_match; done.
  - unfold on_mouse_drag. repeat case_match; done.
  - unfold on_mouse_up. destruct (editable w); [|done].
    destruct (drag_start w) as [s|]; [|done].
    destruct (drag_current w) as [cur|]; [|done].
    intros c b. simpl. rewrite lookup_apply_mode.
    case_decide; [|apply Hw]. repeat case_match; congruence.
  - intros c b. unfold clear_schedule. simpl. by rewrite lookup_empty.
Qed.

(** Whatever the user does, the canvas stores [True] only. *)
Lemma events_all_true (events : list event) (ed : bool) :
  all_true (foldl handle (init ed) events).
Proof.
  cut (∀ w, all_true w → all_true (foldl handle w events)).
  { intros Hcut. apply Hcut. intros c b. simpl. by rewrite lookup_empty. }
  induction events as [|e events IH]; intros w Hw; [done|].
  simpl. by apply IH, handle_all_true.
Qed.

(** Whatever the user does, the canvas holds cells of the grid only. *)
Lemma events_in_grid (events : list event) (ed : bool) (c : cell) :
  is_Some (schedule (foldl handle (init ed) events) !! c) → in_grid c.
Proof.
  set (inv w := (∀ c, is_Some (schedule w !! c) → in_grid c)
                ∧ (∀ c, drag_start w = Some c → in_grid c)
                ∧ (∀ c, drag_current w = Some c →
                        in_grid c ∧ ∃ s, drag_start w = Some s ∧ s.1 = c.1)).
  cut (∀ w, inv w → inv (foldl handle w events)).
  { intros Hcut. apply (Hcut (init ed)). split_and!; simpl; try done.
    intros c'. rewrite lookup_empty. by intros [? ?]. }
  clear c. induction events as [|e events IH]; intros w Hw; [done|].
  simpl. apply IH. clear IH. pose proof Hw as (Hs & Hd & Hc).
  destruct e as [x y|x y| |]; simpl.
  - unfold on_mouse_down. destruct (editable w); simpl; [|done].
    destruct (get_cell_at x y) as [c|] eqn:Hcell; [|done].
    apply get_cell_at_in_grid in Hcell.
    split_and!; simpl; [done|by intros ? [= <-]|].
    intros ? [= <-]. split; [done|by exists c].
  - unfold on_mouse_drag. destruct (editable w); [|done].
    destruct (drag_start w) as [s|] eqn:Hstart; [|done].
    destruct (get_cell_at x y) as [c|] eqn:Hcell; [|done].
    case_bool_decide; [|done].
    apply get_cell_at_in_grid in Hcell.
    split_and!; simpl; [done|done|].
    intros c' [= <-]. split; [done|]. by exists s.
  - unfold on_mouse_up. destruct (editable w); [|done].
    destruct (drag_start w) as [s|] eqn:Hstart; [|done].
    split_and!; simpl; [|done|done].
    destruct (drag_current w) as [cur|] eqn:Hcur; [|done].
    destruct (Hc cur eq_refl) as (Hcg & s' & [= <-] & Hday).
    pose proof (Hd s eq_refl) as Hsg.
    intros c. rewrite lookup_apply_mode. case_decide as Hin; [|apply Hs].
    destruct Hin as [Hday' Hin]. unfold Py.range in Hin.
    apply elem_of_seqZ in Hin. intros _.
    destruct c as [d h]. unfold in_grid in *. simpl in *. lia.
  - unfold clear_schedule. split_and!; simpl; [|done|done].
    intros c'. rewrite lookup_empty. by intros [? ?].
Qed.

(** C8. For every Availability Set held by a canvas (a [dict] whose
    values are all [True]) and every coordinate of the grid, toggling the
    coordinate twice gives back the same [dict]; on an editable canvas,
    toggling removes the coordinate when it is present and inserts it when
    it is absent. *)
Theorem toggle_toggle (w : t) (c : cell) :
  all_true w → in_grid c →
  schedule (toggle (toggle w c) c) = schedule w
  ∧ (editable w = true →
     (is_Some (schedule w !! c) → schedule (toggle w c) = delete c (schedule w))
     ∧ (schedule w !! c = None → schedule (toggle w c) = <[c := true]> (schedule w))).
Proof.
  intros Hw Hg.
  assert (Hsel : selected w c = bool_decide (is_Some (schedule w !! c))).
  { unfold selected. destruct (schedule w !! c) as [b|] eqn:Hb.
    - rewrite (Hw c b Hb). by rewrite bool_decide_eq_true_2.
    - rewrite bool_decide_eq_false_2; [done|]. by intros [? ?]. }
  split.
  - destruct (editable w) eqn:He.
    + rewrite toggle_schedule by (by rewrite ?toggle_editable).
      unfold selected at 1. rewrite (toggle_schedule w c He Hg). rewrite Hsel.
      case_bool_decide as Hin.
      * rewrite lookup_delete_eq. rewrite insert_delete_eq.
        destruct Hin as [b Hb]. apply insert_id. by rewrite Hb, (Hw c b Hb).
      * rewrite lookup_insert_eq. apply delete_insert_id.
        by apply eq_None_not_Some.
    + by rewrite 2!(toggle_read_only w c He).
  - intros He. rewrite (toggle_schedule w c He Hg), Hsel. split; intros Hin.
    + by rewrite bool_decide_eq_true_2.
    + rewrite bool_decide_eq_false_2; [done|]. rewrite Hin. by intros [? ?].
Qed.

Lemma toggle_toggle_witness :
  let w := toggle (init true) (0, 9) in
  schedule (toggle (toggle w (0, 9)) (0, 9)) = schedule w
  ∧ (editable w = true →
     (is_Some (schedule w !! (0, 9)) →
      schedule (toggle w (0, 9)) = delete (0, 9) (schedule w))
     ∧ (schedule w !! (0, 9) = None →
        schedule (toggle w (0, 9)) = <[(0, 9) := true]> (schedule w))).
Proof.
  apply (toggle_toggle (toggle (init true) (0, 9)) (0, 9)).
  - apply (events_all_true [MouseDown 60 30; MouseUp] true).
  - unfold in_grid, START_HOUR, END_HOUR. simpl. lia.
Defined.

End schedule_canvas.

(** ** The overlap canvas *)

Section overlap_canvas.
Import OverlapCanvas.



(** The bands at the boundary values of the ratio, with four participants,
    and below the first boundary, with five. *)
Lemma get_color_for_count_boundaries :
  get_color_for_count (mk ∅ 4) 0 = Py.Ok (band_color NONE)
  ∧ get_color_for_count (mk ∅ 4) 1 = Py.Ok (band_color LOW)
  ∧ get_color_for_count (mk ∅ 4) 2 = Py.Ok (band_color MEDIUM)
  ∧ get_color_for_count (mk ∅ 4) 3 = Py.Ok (band_color HIGH)
  ∧ get_color_for_count (mk ∅ 4) 4 = Py.Ok (band_color FULL)
  ∧ get_color_for_count (mk ∅ 5) 1 = Py.Ok (band_color MINIMAL)
  ∧ get_color_for_count (mk ∅ 0) 3 = Py.Ok (band_color NONE).
Proof. by split_and!. Qed.

End overlap_canvas.

(** ** Python primitives *)

Section python.













End python.

(** ** Sorting cells *)

Section sorting.

#[global] Instance cell_le_total : Total cell_le.
Proof. intros [d1 h1] [d2 h2]. unfold cell_le. simpl. lia. Qed.

#[global] Instance cell_le_trans : Transitive cell_le.
Proof. intros [d1 h1] [d2 h2] [d3 h3]. unfold cell_le. simpl. lia. Qed.

Lemma cell_le_lt (a b : cell) : cell_le a b → a ≠ b → cell_lt a b.
Proof.
  destruct a as [d1 h1], b as [d2 h2]. unfold cell_le, cell_lt. simpl.
  intros Hle Hne.
  destruct (decide (d1 = d2 ∧ h1 = h2)) as [[-> ->]|?]; [done|lia].
Qed.

Lemma sorted_Permutation (l : list cell) : sorted l ≡ₚ l.
Proof. apply merge_sort_Permutation. Qed.

Lemma elem_of_sorted (l : list cell) (c : cell) : c ∈ sorted l ↔ c ∈ l.
Proof. by rewrite sorted_Permutation. Qed.

Lemma sorted_ascending (l : list cell) : StronglySorted cell_le (sorted l).
Proof. apply StronglySorted_merge_sort; apply _. Qed.

(** Without repetitions, the sorted list is strictly ascending. *)
Lemma sorted_strictly_ascending (l : list cell) :
  NoDup l → StronglySorted cell_lt (sorted l).
Proof.
  intros Hnd. rewrite <- sorted_Permutation in Hnd.
  pose proof (sorted_ascending l) as Hs.
  induction Hs as [|c l' Hs IH Hall]; [constructor|].
  apply NoDup_cons in Hnd as [Hc Hnd].
  constructor; [by apply IH|].
  apply Forall_forall. intros c' Hc'.
  apply cell_le_lt; [by eapply Forall_forall in Hall|].
  intros ->. by apply Hc.
Qed.

End sorting.

(** ** Insertion-ordered dictionaries *)

Section dict.
Context {K V : Type} `{EqDecision K}.
Implicit Types (d : Py.dict K V) (k : K) (v : V).

Lemma get_None d k : Py.get d k = None ↔ k ∉ Py.keys d.
Proof.
  unfold Py.keys. induction d as [|[k' v'] d IH]; simpl.
  - split; [intros _; apply not_elem_of_nil|done].
  - rewrite not_elem_of_cons. case_decide as Hk.
    + split; [done|]. by intros [? _].
    + rewrite IH. split; [done|]. by intros [_ ?].
Qed.

Lemma contains_keys d k : Py.contains d k = true ↔ k ∈ Py.keys d.
Proof.
  unfold Py.contains. rewrite bool_decide_eq_true.
  destruct (Py.get d k) eqn:Hg.
  - split; [intros _|by eauto].
    destruct (decide (k ∈ Py.keys d)) as [|Hn]; [done|].
    apply get_None in Hn. congruence.
  - split; [by intros [? ?]|]. intros Hk. by apply get_None in Hg.
Qed.

(** Assignment to a key that is not there appends the entry. *)
Lemma setitem_new d k v : k ∉ Py.keys d → Py.setitem d k v = d ++ [(k, v)].
Proof.
  unfold Py.keys. induction d as [|[k' v'] d IH]; simpl; [done|].
  rewrite not_elem_of_cons. intros [Hne Hk].
  rewrite decide_False by done. by rewrite IH.
Qed.

End dict.

(** ** Counting overlaps *)

Section counting.
Import GroupSchedulerApp.

Lemma occurrences_cons c c' sched :
  occurrences c (c' :: sched)
  = if decide (c' = c) then S (occurrences c sched) else occurrences c sched.
Proof.
  unfold occurrences. case_decide.
  - by rewrite filter_cons_True.
  - by rewrite filter_cons_False.
Qed.

Lemma occurrences_0 c sched : occurrences c sched = 0%nat ↔ c ∉ sched.
Proof.
  induction sched as [|c' sched IH].
  - split; [intros _; apply not_elem_of_nil|done].
  - rewrite occurrences_cons, not_elem_of_cons. case_decide as Hc.
    + split; [done|]. intros [Hne _]. by destruct Hne.
    + rewrite IH. split; [by intros ?; split|by intros [_ ?]].
Qed.

(** The inner loop, one schedule. *)
Lemma lookup_count_cells (counts : gmap cell Z) sched c :
  foldl count_cell counts sched !! c
  = if decide (occurrences c sched = 0%nat) then counts !! c
    else Some (default 0 (counts !! c) + Z.of_nat (occurrences c sched)).
Proof.
  revert counts. induction sched as [|c' sched IH]; intros counts; [done|].
  simpl. rewrite IH, occurrences_cons. unfold count_cell.
  destruct (decide (c' = c)) as [->|Hne].
  - rewrite lookup_insert_eq. simpl.
    case_decide as H0; [rewrite H0|]; f_equal; lia.
  - rewrite lookup_insert_ne by done. done.
Qed.

Lemma lookup_count_schedules (counts : gmap cell Z)
    (loaded : Py.dict string (list cell)) c (n : nat) :
  counts !! c = (if decide (n = 0%nat) then None else Some (Z.of_nat n)) →
  foldl (λ counts entry, foldl count_cell counts entry.2) counts loaded !! c
  = if decide ((n + listed loaded c)%nat = 0%nat) then None
    else Some (Z.of_nat (n + listed loaded c)).
Proof.
  revert counts n. induction loaded as [|[name sched] loaded IH];
    intros counts n Hc; simpl.
  { by rewrite Nat.add_0_r. }
  unfold listed. simpl. fold (listed loaded c).
  rewrite Nat.add_assoc. apply IH.
  rewrite lookup_count_cells, Hc.
  repeat case_decide; try lia; try done; f_equal; simpl; lia.
Qed.

(** The tally holds, for every cell, the number of times the schedules of
    the registry list it, and no entry for a cell that none lists. *)
Lemma lookup_count_overlaps (loaded : Py.dict string (list cell)) c :
  count_overlaps loaded !! c
  = if decide (listed loaded c = 0%nat) then None
    else Some (Z.of_nat (listed loaded c)).
Proof.
  apply (lookup_count_schedules ∅ loaded c 0). by rewrite lookup_empty.
Qed.

Lemma listed_0 (loaded : Py.dict string (list cell)) c :
  listed loaded c = 0%nat ↔ ∀ name sched, (name, sched) ∈ loaded → c ∉ sched.
Proof.
  unfold listed. induction loaded as [|[name sched] loaded IH]; simpl.
  - split; [|done]. intros _ ?? Hin. by apply elem_of_nil in Hin.
  - split.
    + intros H0 name' sched' Hin. apply elem_of_cons in Hin as [[= -> ->]|Hin].
      * apply occurrences_0. lia.
      * apply IH in Hin; [done|lia].
    + intros Hall.
      assert (occurrences c sched = 0%nat) as ->.
      { apply occurrences_0, (Hall name). apply elem_of_cons. by left. }
      apply IH. intros name' sched' Hin. apply (Hall name').
      apply elem_of_cons. by right.
Qed.

(** The cells that [full_overlap_slots] lists. *)
Lemma elem_of_full_overlap_slots (counts : gmap cell Z) total c :
  c ∈ full_overlap_slots counts total ↔ counts !! c = Some total.
Proof.
  unfold full_overlap_slots. rewrite elem_of_sorted, list_elem_of_fmap. split.
  - intros ([c' n] & -> & Hin). apply list_elem_of_filter in Hin as [Hn Hin].
    simpl in *. subst. by apply elem_of_map_to_list.
  - intros Hc. exists (c, total). split; [done|].
    apply list_elem_of_filter. split; [done|]. by apply elem_of_map_to_list.
Qed.


Lemma full_overlap_slots_empty total : full_overlap_slots ∅ total = [].
Proof. unfold full_overlap_slots. by rewrite map_to_list_empty. Qed.

End counting.

(** ** Loading schedules *)

Section loading.
Import GroupSchedulerApp.
Implicit Types (a : t) (f : file) (loaded : Py.dict string (list cell)).

Lemma app_empty_r (s : string) : s +:+ "" = s.
Proof.
  induction s as [|c s IH]; [done|].
  change (String c (s +:+ "") = String c s). by f_equal.
Qed.

Lemma candidate_inj base i j : candidate base i = candidate base j → i = j.
Proof.
  unfold candidate. intros H. apply (inj (String.app base)) in H.
  apply (inj (String.app "_")) in H. by apply (inj pretty) in H.
Qed.

Lemma candidate_ne_base base i : candidate base i ≠ base.
Proof.
  unfold candidate. intros H. rewrite <- (app_empty_r base) in H at 2.
  by apply (inj (String.app base)) in H.
Qed.

(** When the fuel runs out, every name tried is taken. *)
Lemma free_username_None fuel loaded base username counter :
  free_username fuel loaded base username counter = None →
  username ∈ Py.keys loaded
  ∧ ∀ i, counter ≤ i < counter + Z.of_nat fuel → candidate base i ∈ Py.keys loaded.
Proof.
  revert username counter.
  induction fuel as [|fuel IH]; intros username counter; simpl.
  - destruct (Py.contains loaded username) eqn:Hc; [|done]. intros _.
    split; [by apply contains_keys|]. intros i Hi. lia.
  - destruct (Py.contains loaded username) eqn:Hc; [|done]. intros Hn.
    apply IH in Hn as [Hk Hall]. split; [by apply contains_keys|].
    intros i Hi. destruct (decide (i = counter)) as [->|Hne]; [done|].
    apply Hall. lia.
Qed.

(** The name that the loop ends with is free; it is the name the loop was
    entered with when that one is free, and otherwise the first free one
    among the candidates from [counter] on. *)
Lemma free_username_Some fuel loaded base username counter name :
  free_username fuel loaded base username counter = Some name →
  (name ∉ Py.keys loaded)
  ∧ (((username ∉ Py.keys loaded) ∧ name = username)
     ∨ ((username ∈ Py.keys loaded)
        ∧ ∃ j, counter ≤ j ∧ name = candidate base j
               ∧ ∀ i, counter ≤ i < j → candidate base i ∈ Py.keys loaded)).
Proof.
  revert username counter.
  induction fuel as [|fuel IH]; intros username counter; simpl.
  - destruct (Py.contains loaded username) eqn:Hc; [done|]. intros [= <-].
    assert (username ∉ Py.keys loaded) as Hn.
    { rewrite <- contains_keys. by rewrite Hc. }
    split; [done|]. by left.
  - destruct (Py.contains loaded username) eqn:Hc.
    + intros Hs. apply contains_keys in Hc.
      apply IH in Hs as [Hfree [[Hn ->]|[Hin (j & Hj & -> & Hall)]]].
      * split; [done|]. right. split; [done|].
        exists counter. split; [lia|]. split; [done|]. intros i Hi. lia.
      * split; [done|]. right. split; [done|].
        exists j. split; [lia|]. split; [done|]. intros i Hi.
        destruct (decide (i = counter)) as [->|Hne]; [done|]. apply Hall. lia.
    + intros [= <-].
      assert (username ∉ Py.keys loaded) as Hn.
      { rewrite <- contains_keys. by rewrite Hc. }
      split; [done|]. by left.
Qed.

(** The renaming loop ends within as many iterations as the registry has
    entries. *)
Lemma free_username_fuel loaded base :
  is_Some (free_username (length loaded) loaded base base 1).
Proof.
  destruct (free_username (length loaded) loaded base base 1) eqn:Hf; [done|].
  exfalso. apply free_username_None in Hf as [Hbase Hall].
  set (tried := base :: (candidate base <$> seqZ 1 (Z.of_nat (length loaded)))).
  assert (NoDup tried) as Hnd.
  { apply NoDup_cons. split.
    - intros Hin. apply list_elem_of_fmap in Hin as (i & Hi & _).
      by eapply candidate_ne_base.
    - apply NoDup_fmap_2_strong; [|apply NoDup_seqZ].
      intros i j _ _. apply candidate_inj. }
  assert (∀ x, x ∈ tried → x ∈ Py.keys loaded) as Hsub.
  { intros x Hx. apply elem_of_cons in Hx as [->|Hx]; [done|].
    apply list_elem_of_fmap in Hx as (i & -> & Hi).
    apply elem_of_seqZ in Hi. apply Hall. lia. }
  pose proof (submseteq_length _ _ (NoDup_submseteq _ _ Hnd Hsub)) as Hlen.
  unfold tried, Py.keys in Hlen. simpl in Hlen.
  rewrite !length_fmap, length_seqZ in Hlen. lia.
Qed.

(** A file that gives a name and a schedule adds one entry at the end of
    the registry, under a free name. *)
Lemma load_file_add a f name sched :
  read_file f = Py.Ok (Some name, sched) → name ≠ "" → sched ≠ [] →
  let loaded := loaded_schedules a in
  ∃ name',
    free_username (length loaded) loaded name name 1 = Some name'
    ∧ load_file a f
      = (mk (name_entry a) (schedule_canvas a)
           (loaded ++ [(name', sched)])
           (loaded_listbox a ++
              [name' +:+ " (" +:+ Py.str (Z.of_nat (length sched)) +:+ " slots)"])
           (overlap_canvas a) (lbl_part_count a) (lbl_match_count a) (tree a),
         []).
Proof.
  intros Hr Hname Hsched loaded. unfold load_file. rewrite Hr.
  destruct name as [|c name]; [done|]. destruct sched as [|c0 sched]; [done|].
  destruct (free_username_fuel loaded (String c name)) as [name' Hf].
  fold loaded. rewrite Hf. exists name'. split; [done|].
  apply free_username_Some in Hf as [Hfree _]. by rewrite setitem_new.
Qed.

(** Any other file leaves the state as it is. *)
Lemma load_file_loaded a f :
  let loaded := loaded_schedules a in
  (load_file a f).1 = a
  ∨ ∃ name sched name',
      read_file f = Py.Ok (Some name, sched) ∧ name ≠ "" ∧ sched ≠ []
      ∧ free_username (length loaded) loaded name name 1 = Some name'
      ∧ load_file a f
        = (mk (name_entry a) (schedule_canvas a)
             (loaded ++ [(name', sched)])
             (loaded_listbox a ++
                [name' +:+ " (" +:+ Py.str (Z.of_nat (length sched)) +:+ " slots)"])
             (overlap_canvas a) (lbl_part_count a) (lbl_match_count a) (tree a),
           []).
Proof.
  intros loaded.
  destruct (read_file f) as [[[name|] sched]|e] eqn:Hr;
    [|left; unfold load_file; by rewrite Hr..].
  destruct (decide (name = "")) as [->|Hname].
  { left. unfold load_file. rewrite Hr. by destruct sched. }
  destruct (decide (sched = [])) as [->|Hsched].
  { left. unfold load_file. rewrite Hr. by destruct name. }
  right. destruct (load_file_add a f name sched Hr Hname Hsched) as (name' & ? & ?).
  by exists name, sched, name'.
Qed.

Lemma candidate_nonempty base i : candidate base i ≠ "".
Proof. unfold candidate. by destruct base. Qed.

Lemma load_file_registry a f :
  registry_ok (loaded_schedules a) →
  registry_ok (loaded_schedules (load_file a f).1).
Proof.
  intros [Hnd Hne]. destruct (load_file_loaded a f) as
    [->|(name & sched & name' & _ & Hname & Hsched & Hf & ->)]; [done|].
  apply free_username_Some in Hf as [Hfree Hor]. simpl. split.
  - unfold Py.keys in *. rewrite fmap_app. apply NoDup_app.
    split_and!; [done| |apply NoDup_singleton].
    intros k Hk Hk'. apply list_elem_of_singleton in Hk'. by subst.
  - intros k v Hin. apply elem_of_app in Hin as [Hin|Hin]; [by eapply Hne|].
    apply list_elem_of_singleton in Hin as [= -> ->]. split; [|done].
    destruct Hor as [[_ ->]|[_ (j & _ & -> & _)]];
      [done|apply candidate_nonempty].
Qed.

(** Reading files changes the registry and the list box only. *)
Lemma load_file_display a f :
  let a' := (load_file a f).1 in
  overlap_canvas a' = overlap_canvas a ∧ lbl_part_count a' = lbl_part_count a
  ∧ lbl_match_count a' = lbl_match_count a ∧ tree a' = tree a
  ∧ ∃ more, loaded_schedules a' = loaded_schedules a ++ more.
Proof.
  destruct (load_file_loaded a f) as
    [->|(name & sched & name' & _ & _ & _ & _ & ->)]; simpl.
  - split_and!; try done. exists []. by rewrite app_nil_r.
  - split_and!; try done. by eexists.
Qed.

Lemma load_files_registry a files :
  registry_ok (loaded_schedules a) →
  registry_ok (loaded_schedules (load_files a files).1).
Proof.
  revert a. induction files as [|f files IH]; intros a Ha; [done|]. simpl.
  pose proof (load_file_registry a f Ha) as H1.
  destruct (load_file a f) as [a1 r1]. specialize (IH a1 H1).
  by destruct (load_files a1 files) as [a2 r2].
Qed.

Lemma load_files_display a files :
  let a' := (load_files a files).1 in
  overlap_canvas a' = overlap_canvas a ∧ lbl_part_count a' = lbl_part_count a
  ∧ lbl_match_count a' = lbl_match_count a ∧ tree a' = tree a
  ∧ ∃ more, loaded_schedules a' = loaded_schedules a ++ more.
Proof.
  revert a. induction files as [|f files IH]; intros a; simpl.
  { split_and!; try done. exists []. by rewrite app_nil_r. }
  pose proof (load_file_display a f) as H1.
  destruct (load_file a f) as [a1 r1]. specialize (IH a1).
  destruct (load_files a1 files) as [a2 r2]. simpl in *.
  destruct H1 as (H1c & H1p & H1m & H1t & more1 & H1l).
  destruct IH as (H2c & H2p & H2m & H2t & more2 & H2l).
  split_and!; try congruence.
  exists (more1 ++ more2). by rewrite app_assoc, <- H1l.
Qed.

(** What [update_overlaps] leaves on display. *)
Lemma update_overlaps_fields a :
  let a' := (update_overlaps a).1 in
  let loaded := loaded_schedules a in
  let total := Z.of_nat (length loaded) in
  let counts := count_overlaps loaded in
  loaded_schedules a' = loaded
  ∧ (loaded = [] → a' = a)
  ∧ (loaded ≠ [] →
     overlap_canvas a' = OverlapCanvas.mk counts total
     ∧ lbl_part_count a' = Py.str total
     ∧ lbl_match_count a'
       = Py.str (Z.of_nat (length (full_overlap_slots counts total)))).
Proof.
  unfold update_overlaps. destruct (loaded_schedules a) as [|e l] eqn:Hl; simpl.
  { by split_and!. }
  destruct (insert_slots _ _) as [rows raised]. simpl.
  by split_and!.
Qed.

Lemma update_overlaps_loaded a :
  loaded_schedules (update_overlaps a).1 = loaded_schedules a.
Proof. apply update_overlaps_fields. Qed.

Lemma display_ok_empty a :
  loaded_schedules a = [] →
  display_ok a ↔ overlap_canvas a = OverlapCanvas.mk ∅ 0
                  ∧ lbl_part_count a = "0" ∧ lbl_match_count a = "0".
Proof.
  intros Hl. unfold display_ok. rewrite Hl. simpl.
  by rewrite full_overlap_slots_empty.
Qed.

Lemma step_consistent a act : consistent a → consistent (step a act).
Proof.
  intros [Hd Hr]. destruct act as [text|e|files|]; simpl; try done.
  - unfold load_schedules. destruct files as [|f files]; [done|].
    pose proof (load_files_registry a (f :: files) Hr) as Hr1.
    pose proof (load_files_display a (f :: files)) as Hd1.
    destruct (load_files a (f :: files)) as [a1 r1]. simpl in Hr1, Hd1.
    pose proof (update_overlaps_fields a1) as (Hl & Hempty & Hfull).
    destruct (update_overlaps a1) as [a2 r2]. simpl in *.
    split; [|by rewrite Hl].
    destruct (decide (loaded_schedules a1 = [])) as [He|Hne].
    + rewrite (Hempty He). destruct Hd1 as (Hc & Hp & Hm & _ & more & Hmore).
      rewrite He in Hmore. symmetry in Hmore.
      apply app_eq_nil in Hmore as [Ha _].
      apply (display_ok_empty a1 He). rewrite Hc, Hp, Hm.
      by apply (display_ok_empty a Ha).
    + unfold display_ok. rewrite Hl. by apply Hfull.
  - split.
    + apply display_ok_empty; [done|]. done.
    + split; [apply NoDup_nil_2|]. intros ?? Hin. by apply elem_of_nil in Hin.
Qed.

(** Every state of a session is consistent. *)
Lemma run_consistent (acts : list action) : consistent (run acts).
Proof.
  unfold run. cut (consistent init).
  { generalize init. induction acts as [|act acts IH]; intros a Ha; [done|].
    simpl. by apply IH, step_consistent. }
  split.
  - apply display_ok_empty; [done|]. done.
  - split; [apply NoDup_nil_2|]. intros ?? Hin. by apply elem_of_nil in Hin.
Qed.

End loading.

(** ** The claims on the overlap engine *)

Section engine.
Import GroupSchedulerApp.

(** C1. In every state of a session, the overlap canvas holds the tally of
    the registry: the total is the number of participants, and the count of
    a cell is the number of times the schedules of the participants list it
    (one increment for each coordinate of each schedule), with no entry for
    a cell that nobody lists; with an empty registry the tally is empty and
    the total is 0.  [update_overlaps] sets this tally whenever the registry
    is not empty. *)
Theorem update_overlaps_tally (acts : list action) :
  let a := run acts in
  let loaded := loaded_schedules a in
  let tally := overlap_canvas a in
  OverlapCanvas.total_participants tally = Z.of_nat (length loaded)
  ∧ OverlapCanvas.overlap_counts tally = count_overlaps loaded
  ∧ (∀ c, OverlapCanvas.count_at tally c = Z.of_nat (listed loaded c))
  ∧ (∀ c, OverlapCanvas.overlap_counts tally !! c = None
          ↔ ∀ name sched, (name, sched) ∈ loaded → c ∉ sched)
  ∧ (loaded = [] →
     OverlapCanvas.overlap_counts tally = ∅
     ∧ OverlapCanvas.total_participants tally = 0)
  ∧ (∀ a0, loaded_schedules a0 ≠ [] →
       overlap_canvas (update_overlaps a0).1
       = OverlapCanvas.mk (count_overlaps (loaded_schedules a0))
           (Z.of_nat (length (loaded_schedules a0)))).
Proof.
  intros a loaded tally.
  destruct (run_consistent acts) as [(Hc & _ & _) _].
  fold a in Hc. fold tally loaded in Hc. rewrite Hc. simpl.
  split_and!; try done.
  - intros c. unfold OverlapCanvas.count_at. simpl.
    rewrite lookup_count_overlaps. case_decide as H0; [by rewrite H0|done].
  - intros c. rewrite lookup_count_overlaps, <- listed_0.
    case_decide; [done|]. split; [done|]. intros ?. done.
  - by intros ->.
  - intros a0 Hne. by apply (update_overlaps_fields a0).
Qed.

Lemma update_overlaps_tally_witness :
  OverlapCanvas.overlap_counts (overlap_canvas (run [])) = ∅
  ∧ OverlapCanvas.total_participants (overlap_canvas (run [])) = 0.
Proof.
  destruct (update_overlaps_tally []) as (_ & _ & _ & _ & H & _).
  apply H. reflexivity.
Defined.



(** The scenario of the specification: A selects (0,9), (0,10), (1,9) and
    B selects (0,9), (1,9), (1,10). *)
Lemma scenario_two_participants :
  let header := ["username"; "day"; "day_name"; "hour"] in
  let file_a : file :=
    ("a.tsv", Some (Csv.written_with_tabs
                      [header; ["A"; "0"; "Monday"; "9"]; ["A"; "0"; "Monday"; "10"];
                       ["A"; "1"; "Tuesday"; "9"]])) in
  let file_b : file :=
    ("b.tsv", Some (Csv.written_with_tabs
                      [header; ["B"; "0"; "Monday"; "9"]; ["B"; "1"; "Tuesday"; "9"];
                       ["B"; "1"; "Tuesday"; "10"]])) in
  let a := run [LoadFiles [file_a; file_b]] in
  let tally := overlap_canvas a in
  OverlapCanvas.total_participants tally = 2
  ∧ map_to_list (OverlapCanvas.overlap_counts tally)
    ≡ₚ [((0, 9), 2); ((0, 10), 1); ((1, 9), 2); ((1, 10), 1)]
  ∧ full_overlap_slots (OverlapCanvas.overlap_counts tally) 2 = [(0, 9); (1, 9)]
  ∧ lbl_part_count a = "2" ∧ lbl_match_count a = "2"
  ∧ tree a = [("Monday", "09:00"); ("Tuesday", "09:00")].
Proof. split_and!; vm_compute; reflexivity. Qed.

End engine.

(** ** The claims on the registry *)

Section registry.
Import GroupSchedulerApp.



End registry.

(** ** The claims on the import *)

Section import.
Import GroupSchedulerApp.



(** C7, at the input on which the code fails it.  A row whose day and hour
    are integers outside the grid is put into the registry as it is.  With
    day 7 the registry holds (7, 25) and [update_overlaps] then raises
    [IndexError] while it fills the list of full matches; with an hour
    alone out of range nothing is reported at all and the slot is listed
    as a full match at 25:00. *)
Theorem load_out_of_range :
  let header := ["username"; "day"; "day_name"; "hour"] in
  let f1 : file :=
    ("bob.tsv", Some (Csv.written_with_tabs [header; ["Bob"; "7"; "Someday"; "25"]])) in
  let f2 : file :=
    ("bob.tsv", Some (Csv.written_with_tabs [header; ["Bob"; "0"; "Monday"; "25"]])) in
  (loaded_schedules (load_schedules init [f1]).1 = [("Bob", [(7, 25)])]
   ∧ (load_schedules init [f1]).2 = [traceback Py.IndexError]
   ∧ ¬ ScheduleCanvas.in_grid (7, 25))
  ∧ (loaded_schedules (load_schedules init [f2]).1 = [("Bob", [(0, 25)])]
     ∧ (load_schedules init [f2]).2 = []
     ∧ tree (load_schedules init [f2]).1 = [("Monday", "25:00")]
     ∧ ¬ ScheduleCanvas.in_grid (0, 25)).
Proof.
  split_and!; try (vm_compute; reflexivity).
  - unfold ScheduleCanvas.in_grid. simpl. lia.
  - unfold ScheduleCanvas.in_grid, ScheduleCanvas.END_HOUR. simpl. lia.
Qed.

(** C10, at the input on which the code fails it.  A file that lists
    (0, 9) twice counts twice for its one participant: the count of the
    slot is 2 with a total of 1.  With a second participant who does not
    list the slot, its count equals the total and it is shown as a full
    match although one of the two is not available. *)
Theorem load_duplicate_rows :
  let header := ["username"; "day"; "day_name"; "hour"] in
  let alice : file :=
    ("alice.tsv", Some (Csv.written_with_tabs
                          [header; ["Alice"; "0"; "Monday"; "9"];
                           ["Alice"; "0"; "Monday"; "9"]])) in
  let bob : file :=
    ("bob.tsv", Some (Csv.written_with_tabs [header; ["Bob"; "1"; "Tuesday"; "10"]])) in
  let a1 := (load_schedules init [alice]).1 in
  let a2 := (load_schedules init [alice; bob]).1 in
  (loaded_schedules a1 = [("Alice", [(0, 9); (0, 9)])]
   ∧ OverlapCanvas.count_at (overlap_canvas a1) (0, 9) = 2
   ∧ OverlapCanvas.total_participants (overlap_canvas a1) = 1)
  ∧ (OverlapCanvas.count_at (overlap_canvas a2) (0, 9) = 2
     ∧ OverlapCanvas.total_participants (overlap_canvas a2) = 2
     ∧ Py.get (loaded_schedules a2) "Bob" = Some [(1, 10)]
     ∧ tree a2 = [("Monday", "09:00")]
     ∧ lbl_match_count a2 = "1").
Proof. split_and!; vm_compute; reflexivity. Qed.

End import.

(** ** Export and import of one schedule *)

Section roundtrip.
Import GroupSchedulerApp.

(** The cells that [get_schedule_data] lists are the keys of the [dict],
    each once. *)
Lemma elem_of_get_schedule_data (w : ScheduleCanvas.t) (c : cell) :
  c ∈ ScheduleCanvas.get_schedule_data w ↔ c ∈ dom (ScheduleCanvas.schedule w).
Proof.
  unfold ScheduleCanvas.get_schedule_data.
  rewrite elem_of_sorted, elem_of_dom, list_elem_of_fmap. split.
  - intros ([c' b] & -> & Hin). apply elem_of_map_to_list in Hin. by exists b.
  - intros [b Hb]. exists (c, b). split; [done|]. by apply elem_of_map_to_list.
Qed.

Lemma NoDup_get_schedule_data (w : ScheduleCanvas.t) :
  NoDup (ScheduleCanvas.get_schedule_data w).
Proof.
  unfold ScheduleCanvas.get_schedule_data. rewrite sorted_Permutation.
  apply NoDup_fst_map_to_list.
Qed.







End roundtrip.


(** ** The analysis export *)

Section analysis.
Import GroupSchedulerApp.

Lemma analysis_row_in_grid (counts : gmap cell Z) (total : Z) (c : cell) :
  0 < total → 0 ≤ c.1 < 7 →
  analysis_row counts total c
  = Py.Ok (analysis_record (default 0 (counts !! c)) total c).
Proof.
  intros Ht Hd. unfold analysis_row, analysis_record, Py.truediv.
  destruct (Z.ltb_spec 0 total); [|lia].
  destruct (Z.eqb_spec total 0); [lia|]. simpl.
  destruct c as [day hour]. simpl in *.
  assert (day = 0 ∨ day = 1 ∨ day = 2 ∨ day = 3 ∨ day = 4 ∨ day = 5 ∨ day = 6)
    as Hcases by lia.
  repeat destruct Hcases as [->|Hcases]; try done. by subst.
Qed.

Lemma write_analysis_in_grid (written : list Csv.record)
    (counts : gmap cell Z) (total : Z) (cells : list cell) :
  0 < total → Forall (λ c, 0 ≤ c.1 < 7) cells →
  write_analysis written counts total cells
  = (written ++ ((λ c, analysis_record (default 0 (counts !! c)) total c) <$> cells),
     None).
Proof.
  intros Ht Hcells. revert written.
  induction Hcells as [|c cells Hc _ IH]; intros written; simpl.
  { by rewrite app_nil_r. }
  rewrite analysis_row_in_grid by done. rewrite IH, <- app_assoc. done.
Qed.

Lemma grid_cells_day : Forall (λ c, 0 ≤ c.1 < 7) grid_cells.
Proof.
  apply Forall_forall. intros c Hin. unfold grid_cells in Hin.
  apply list_elem_of_bind in Hin as (day & Hin & Hday).
  apply list_elem_of_bind in Hin as (hour & Hin & _).
  apply list_elem_of_singleton in Hin as ->.
  apply elem_of_seqZ in Hday. simpl. lia.
Qed.

(** The grid is walked day by day, and hour by hour within a day. *)
Lemma grid_cells_lookup (day hour : Z) :
  0 ≤ day < 7 → 9 ≤ hour < 20 →
  grid_cells !! Z.to_nat (11 * day + (hour - 9)) = Some (day, hour).
Proof.
  intros Hd Hh.
  assert (day = 0 ∨ day = 1 ∨ day = 2 ∨ day = 3 ∨ day = 4 ∨ day = 5 ∨ day = 6)
    as Hday by lia.
  assert (hour = 9 ∨ hour = 10 ∨ hour = 11 ∨ hour = 12 ∨ hour = 13 ∨ hour = 14
          ∨ hour = 15 ∨ hour = 16 ∨ hour = 17 ∨ hour = 18 ∨ hour = 19)
    as Hhour by lia.
  repeat destruct Hday as [->|Hday]; subst;
    repeat destruct Hhour as [->|Hhour]; subst; reflexivity.
Qed.

Lemma export_analysis_loaded (a : t) (filename : string) :
  loaded_schedules a ≠ [] → filename ≠ "" →
  export_analysis a filename
  = match write_analysis [analysis_header] (count_overlaps (loaded_schedules a))
            (Z.of_nat (length (loaded_schedules a))) grid_cells with
    | (written, None) =>
        ([showinfo ("Analysis exported to:" +:+ nl +:+ filename)],
         Some (filename, written))
    | (written, Some e) =>
        ([showerror "Failed to export" e], Some (filename, written))
    end.
Proof.
  intros Hl Hf. unfold export_analysis.
  destruct (loaded_schedules a); [done|]. by rewrite bool_decide_eq_false_2.
Qed.




End analysis.

(** * Further properties of the code *)

(** ** The schedule canvas: geometry, drags and listing *)

Section canvas_more.
Import ScheduleCanvas.

Lemma get_cell_at_Some (x y : Z) (c : cell) :
  get_cell_at x y = Some c
  ↔ in_grid c
    ∧ (cell_rectangle c).1.1.1 ≤ x < (cell_rectangle c).1.2
    ∧ (cell_rectangle c).1.1.2 ≤ y < (cell_rectangle c).2.
Proof.
  unfold get_cell_at, in_grid, cell_rectangle, time_width, header_height,
    cell_width, cell_height, START_HOUR, END_HOUR.
  change (Z.of_nat (length DAYS)) with 7.
  pose proof (Z.div_mod (x - 60) 100 ltac:(lia)) as Hx.
  pose proof (Z.mod_pos_bound (x - 60) 100 ltac:(lia)) as Hx'.
  pose proof (Z.div_mod (y - 30) 40 ltac:(lia)) as Hy.
  pose proof (Z.mod_pos_bound (y - 30) 40 ltac:(lia)) as Hy'.
  destruct c as [day hour]. simpl.
  repeat case_match; zbool; split; intros Hgoal; simplify_eq/=;
    try (exfalso; lia); try lia; do 2 f_equal; lia.
Qed.

(** X1. A pixel is mapped to a cell exactly when the cell is in the grid and
    the pixel lies in the rectangle that [draw_grid] draws for the cell
    (left and top edges included, right and bottom edges excluded); it is
    mapped to no cell exactly when it lies left of or above the grid, or
    beyond its last column or row. *)
Theorem get_cell_at_rectangle (x y : Z) :
  (∀ c, get_cell_at x y = Some c
        ↔ in_grid c
          ∧ (cell_rectangle c).1.1.1 ≤ x < (cell_rectangle c).1.2
          ∧ (cell_rectangle c).1.1.2 ≤ y < (cell_rectangle c).2)
  ∧ (get_cell_at x y = None
     ↔ x < time_width ∨ y < header_height
       ∨ time_width + Z.of_nat (length DAYS) * cell_width ≤ x
       ∨ header_height + (END_HOUR - START_HOUR) * cell_height ≤ y).
Proof.
  split; [intros c; apply get_cell_at_Some|].
  unfold get_cell_at, time_width, header_height,
    cell_width, cell_height, START_HOUR, END_HOUR.
  change (Z.of_nat (length DAYS)) with 7.
  pose proof (Z.div_mod (x - 60) 100 ltac:(lia)) as Hx.
  pose proof (Z.mod_pos_bound (x - 60) 100 ltac:(lia)) as Hx'.
  pose proof (Z.div_mod (y - 30) 40 ltac:(lia)) as Hy.
  pose proof (Z.mod_pos_bound (y - 30) 40 ltac:(lia)) as Hy'.
  repeat case_match; zbool; split; intros Hgoal; try done; try lia.
Qed.

(** X2. Whatever the user does to a canvas, its [dict] holds cells of the
    grid only, each with the value [True]; the list that
    [get_schedule_data] gives is made of cells of the grid. *)
Theorem canvas_holds_grid_cells (events : list event) (ed : bool) :
  let w := foldl handle (init ed) events in
  (∀ c b, schedule w !! c = Some b → in_grid c ∧ b = true)
  ∧ Forall in_grid (get_schedule_data w).
Proof.
  intros w. split.
  - intros c b Hc. split.
    + apply (events_in_grid events ed c). by exists b.
    + by apply (events_all_true events ed c b).
  - apply Forall_forall. intros c Hc.
    apply elem_of_get_schedule_data, elem_of_dom in Hc.
    by apply (events_in_grid events ed c).
Qed.

(** X3. Pressing the button in a cell, moving to another pixel and releasing
    applies one and the same change to every hour between the two cells, on
    the day of the first: all are removed when the first cell was selected,
    all are inserted otherwise; nothing else changes.  A move to a pixel
    outside the grid or on another day is ignored, so that the first cell
    alone is changed. *)
Theorem drag_applies_range (w : t) (x1 y1 x2 y2 : Z) (day h1 : Z) (c : cell) :
  editable w = true →
  get_cell_at x1 y1 = Some (day, h1) →
  let h2 := match get_cell_at x2 y2 with
            | Some c2 => if decide (c2.1 = day) then c2.2 else h1
            | None => h1
            end in
  let w' := on_mouse_up (on_mouse_drag (on_mouse_down w x1 y1) x2 y2) in
  schedule w' !! c
  = (if decide (c.1 = day ∧ Z.min h1 h2 ≤ c.2 ≤ Z.max h1 h2)
     then (if selected w (day, h1) then None else Some true)
     else schedule w !! c)
  ∧ drag_start w' = None ∧ drag_current w' = None ∧ drag_mode w' = None.
Proof.
  intros He Hc1 h2 w'. unfold w', on_mouse_down. rewrite He, Hc1. simpl.
  unfold on_mouse_drag. simpl.
  assert (∀ cur m,
    schedule (on_mouse_up (mk true (schedule w) (Some (day, h1)) (Some cur) m)) !! c
    = if decide (c.1 = day ∧ Z.min h1 cur.2 ≤ c.2 ≤ Z.max h1 cur.2)
      then match m with Some select => Some true | _ => None end
      else schedule w !! c) as Hup.
  { intros cur m. unfold on_mouse_up. simpl. rewrite lookup_apply_mode.
    unfold Py.range.
    destruct (decide (c.1 = day ∧ Z.min h1 cur.2 ≤ c.2 ≤ Z.max h1 cur.2)) as [Hin|Hin].
    - rewrite decide_True; [done|]. rewrite elem_of_seqZ. lia.
    - rewrite decide_False; [done|]. rewrite elem_of_seqZ. lia. }
  unfold h2. destruct (get_cell_at x2 y2) as [[d2 hh2]|] eqn:Hc2; simpl.
  - case_bool_decide as Hd; simpl in Hd.
    + rewrite (decide_True (P := d2 = day)) by done. split; [|done].
      etrans; [exact (Hup (d2, hh2) _)|]. simpl.
      by destruct (selected w (day, h1)).
    + rewrite (decide_False (P := d2 = day)) by done. split; [|done].
      etrans; [exact (Hup (day, h1) _)|]. simpl.
      by destruct (selected w (day, h1)).
  - split; [|done]. etrans; [exact (Hup (day, h1) _)|]. simpl.
    by destruct (selected w (day, h1)).
Qed.

Lemma drag_applies_range_witness :
  let w' := on_mouse_up (on_mouse_drag (on_mouse_down (init true) 60 30) 60 150) in
  schedule w' !! (0, 11)
  = (if decide ((0, 11).1 = 0 ∧ Z.min 9 12 ≤ (0, 11).2 ≤ Z.max 9 12)
     then (if selected (init true) (0, 9) then None else Some true)
     else schedule (init true) !! (0, 11))
  ∧ drag_start w' = None ∧ drag_current w' = None ∧ drag_mode w' = None.
Proof.
  apply (drag_applies_range (init true) 60 30 60 150 0 9 (0, 11)); reflexivity.
Defined.

(** X4. [get_schedule_data] lists the keys of the [dict], all of them, each
    once, in strictly ascending order of (day, hour). *)
Theorem get_schedule_data_ascending (w : t) :
  StronglySorted cell_lt (get_schedule_data w)
  ∧ (∀ c, c ∈ get_schedule_data w ↔ is_Some (schedule w !! c))
  ∧ length (get_schedule_data w) = size (schedule w).
Proof.
  split_and!.
  - apply sorted_strictly_ascending, NoDup_fst_map_to_list.
  - intros c. by rewrite elem_of_get_schedule_data, elem_of_dom.
  - unfold get_schedule_data. rewrite sorted_Permutation, length_fmap.
    apply length_map_to_list.
Qed.

Lemma lookup_set_schedule_data (w : t) (data : list cell) (c : cell) :
  schedule (set_schedule_data w data) !! c
  = if decide (c ∈ data) then Some true else None.
Proof.
  unfold set_schedule_data. simpl.
  cut (∀ m : gmap cell bool,
         foldl (λ d c', <[c' := true]> d) m data !! c
         = if decide (c ∈ data) then Some true else m !! c).
  { intros Hcut. by rewrite Hcut, lookup_empty. }
  induction data as [|c' data IH]; intros m; simpl; [done|].
  rewrite IH. destruct (decide (c ∈ data)) as [Hin|Hin].
  - rewrite decide_True; [done|]. apply elem_of_cons. by right.
  - destruct (decide (c = c')) as [->|Hne].
    + rewrite lookup_insert_eq, decide_True; [done|]. apply elem_of_cons. by left.
    + rewrite lookup_insert_ne by done. rewrite decide_False; [done|].
      rewrite elem_of_cons. by intros [?|?].
Qed.

Lemma ascending_NoDup (l : list cell) : StronglySorted cell_lt l → NoDup l.
Proof.
  induction 1 as [|c l _ IH Hall]; [apply NoDup_nil_2|].
  apply NoDup_cons. split; [|done]. intros Hin.
  apply (Forall_forall (cell_lt c) l) in Hin; [|done].
  unfold cell_lt in Hin. lia.
Qed.

(** X5. After [set_schedule_data], the canvas holds the cells of the list
    that it was given and no other, each with the value [True];
    [get_schedule_data] then gives the list back when it is strictly
    ascending, as every list that [get_schedule_data] gave is. *)
Theorem set_then_get_schedule_data (w : t) (data : list cell) :
  (∀ c, c ∈ get_schedule_data (set_schedule_data w data) ↔ c ∈ data)
  ∧ all_true (set_schedule_data w data)
  ∧ (StronglySorted cell_lt data →
     get_schedule_data (set_schedule_data w data) = data)
  ∧ ∀ w0, get_schedule_data (set_schedule_data w (get_schedule_data w0))
          = get_schedule_data w0.
Proof.
  assert (∀ data', ∀ c,
            c ∈ get_schedule_data (set_schedule_data w data') ↔ c ∈ data') as Hel.
  { intros data' c.
    rewrite elem_of_get_schedule_data, elem_of_dom, lookup_set_schedule_data.
    case_decide; [done|]. split; [by intros [? ?]|done]. }
  assert (∀ data', StronglySorted cell_lt data' →
            get_schedule_data (set_schedule_data w data') = data') as Hsorted.
  { intros data' Hs.
    apply (StronglySorted_unique_strong cell_lt).
    - intros [d1 h1] [d2 h2] _ _. unfold cell_lt. simpl. lia.
    - apply sorted_strictly_ascending, NoDup_fst_map_to_list.
    - done.
    - apply NoDup_Permutation; [apply NoDup_get_schedule_data
                               |by apply ascending_NoDup|apply Hel]. }
  split_and!; [apply Hel| |apply Hsorted|].
  - intros c b. rewrite lookup_set_schedule_data. case_decide; congruence.
  - intros w0. apply Hsorted.
    apply sorted_strictly_ascending, NoDup_fst_map_to_list.
Qed.

Lemma set_then_get_schedule_data_witness :
  get_schedule_data (set_schedule_data (init false) [(0, 9); (0, 10); (1, 9)])
  = [(0, 9); (0, 10); (1, 9)].
Proof.
  destruct (set_then_get_schedule_data (init false) [(0, 9); (0, 10); (1, 9)])
    as (_ & _ & H & _).
  apply H. repeat constructor; unfold cell_lt; simpl; lia.
Defined.

Lemma elem_of_draw_cells (w : t) (rect : Z * Z * Z * Z) (fill : string) :
  (rect, fill) ∈ draw_cells w
  ↔ ∃ c, in_grid c ∧ rect = cell_rectangle c
         ∧ fill = if selected w c then "#4CAF50" else "white".
Proof.
  unfold draw_cells. rewrite list_elem_of_bind. split.
  - intros (hour & Hin & Hhour). apply list_elem_of_bind in Hin as (day & Hin & Hday).
    apply list_elem_of_singleton in Hin as [= -> ->].
    unfold Py.range in *. apply elem_of_seqZ in Hhour, Hday.
    exists (day, hour). split; [|done]. unfold in_grid. simpl.
    change (Z.of_nat (length DAYS)) with 7 in *.
    unfold START_HOUR, END_HOUR in *. lia.
  - intros ([day hour] & Hg & -> & ->). exists hour.
    unfold in_grid in Hg. simpl in Hg.
    change (Z.of_nat (length DAYS)) with 7 in *.
    unfold START_HOUR, END_HOUR in *. split.
    + apply list_elem_of_bind. exists day. split; [apply list_elem_of_singleton; done|].
      unfold Py.range. apply elem_of_seqZ. lia.
    + unfold Py.range. apply elem_of_seqZ. lia.
Qed.

Lemma cell_rectangle_inj (c1 c2 : cell) :
  cell_rectangle c1 = cell_rectangle c2 → c1 = c2.
Proof.
  destruct c1 as [d1 h1], c2 as [d2 h2].
  unfold cell_rectangle, time_width, header_height, cell_width, cell_height,
    START_HOUR. simpl. intros [= Hx Hy]. f_equal; lia.
Qed.

(** X6. On a canvas that can be edited, a click on any pixel of a rectangle
    that [draw_grid] has drawn changes the fill colour of this rectangle,
    from white to green or from green to white, and of no other: the next
    [draw_grid] draws the other rectangles as they were. *)
Theorem click_flips_drawn_cell (w : t) (rect : Z * Z * Z * Z) (fill : string)
    (px py : Z) :
  editable w = true →
  (rect, fill) ∈ draw_cells w →
  rect.1.1.1 ≤ px < rect.1.2 →
  rect.1.1.2 ≤ py < rect.2 →
  let w' := click w px py in
  (rect, if decide (fill = "white") then "#4CAF50" else "white") ∈ draw_cells w'
  ∧ ∀ rect' fill', rect' ≠ rect →
      ((rect', fill') ∈ draw_cells w' ↔ (rect', fill') ∈ draw_cells w).
Proof.
  intros He Hin Hx Hy w'.
  apply elem_of_draw_cells in Hin as (c & Hg & -> & ->).
  assert (get_cell_at px py = Some c) as Hcell by (by apply get_cell_at_Some).
  assert (∀ c', selected w' c'
                = if decide (c' = c) then negb (selected w c) else selected w c')
    as Hsel.
  { intros c'. unfold selected at 1. unfold w'.
    rewrite (click_schedule w px py c He Hcell).
    destruct (decide (c' = c)) as [->|Hne].
    - destruct (selected w c); simpl.
      + by rewrite lookup_delete_eq.
      + by rewrite lookup_insert_eq.
    - destruct (selected w c); simpl.
      + by rewrite lookup_delete_ne.
      + by rewrite lookup_insert_ne. }
  split.
  - apply elem_of_draw_cells. exists c. split; [done|]. split; [done|].
    rewrite Hsel. rewrite (decide_True (P := c = c)) by done.
    by destruct (selected w c).
  - intros rect' fill' Hne. rewrite !elem_of_draw_cells.
    split; intros (c' & Hg' & -> & ->); exists c';
      (split; [done|]); (split; [done|]);
      rewrite Hsel; rewrite (decide_False (P := c' = c)); try done;
      by intros ->.
Qed.

Lemma click_flips_drawn_cell_witness :
  let w' := click (init true) 65 35 in
  ((60, 30, 160, 70), if decide ("white" = "white") then "#4CAF50" else "white")
    ∈ draw_cells w'
  ∧ ∀ rect' fill', rect' ≠ (60, 30, 160, 70) →
      ((rect', fill') ∈ draw_cells w' ↔ (rect', fill') ∈ draw_cells (init true)).
Proof.
  apply (click_flips_drawn_cell (init true) (60, 30, 160, 70) "white" 65 35).
  - reflexivity.
  - apply elem_of_draw_cells. exists (0, 9). split_and!; [|reflexivity..].
    unfold in_grid, START_HOUR, END_HOUR. simpl. lia.
  - simpl. lia.
  - simpl. lia.
Defined.

End canvas_more.

(** ** The overlap canvas: thresholds and drawing *)

Section overlap_more.
Import OverlapCanvas.

(** The comparisons of [count / total] with a fraction, on integers. *)
Lemma ratio_le (p : Z) (q : positive) (count total : Z) :
  0 < total →
  (p # q <= inject_Z count / inject_Z total)%Q ↔ p * total ≤ Z.pos q * count.
Proof.
  intros Ht. destruct total as [|t|t]; try lia.
  unfold Qle, Qdiv, Qmult, Qinv, inject_Z. simpl. nia.
Qed.

Lemma ratio_eq_1 (count total : Z) :
  0 < total → (inject_Z count / inject_Z total == 1)%Q ↔ count = total.
Proof.
  intros Ht. destruct total as [|t|t]; try lia.
  unfold Qeq, Qdiv, Qmult, Qinv, inject_Z. simpl. nia.
Qed.

Lemma get_color_for_count_cases (w : t) (count : Z) :
  0 < total_participants w → count ≠ 0 →
  let total := total_participants w in
  get_color_for_count w count
  = Py.Ok (band_color
             (if decide (count = total) then FULL
              else if decide (3 * total ≤ 4 * count) then HIGH
              else if decide (total ≤ 2 * count) then MEDIUM
              else if decide (total ≤ 4 * count) then LOW
              else MINIMAL)).
Proof.
  intros Ht Hc total. unfold get_color_for_count, Py.truediv. fold total.
  destruct (Z.eqb_spec count 0) as [|_]; [done|].
  destruct (Z.eqb_spec total 0) as [|_]; [lia|]. simpl.
  pose proof (Qeq_bool_iff (inject_Z count / inject_Z total) 1) as H1.
  pose proof (Qle_bool_iff (3 # 4) (inject_Z count / inject_Z total)) as H2.
  pose proof (Qle_bool_iff (1 # 2) (inject_Z count / inject_Z total)) as H3.
  pose proof (Qle_bool_iff (1 # 4) (inject_Z count / inject_Z total)) as H4.
  rewrite ratio_eq_1 in H1 by done. rewrite ratio_le in H2, H3, H4 by done.
  destruct (Qeq_bool _ 1).
  { rewrite decide_True; [done|]. by apply H1. }
  rewrite decide_False by (intros ?; assert (false = true) by (by apply H1); done).
  destruct (Qle_bool (3 # 4) _).
  { rewrite decide_True; [done|]. apply proj1 in H2. specialize (H2 eq_refl). lia. }
  rewrite decide_False by (intros ?; assert (false = true) by (apply H2; lia); done).
  destruct (Qle_bool (1 # 2) _).
  { rewrite decide_True; [done|]. apply proj1 in H3. specialize (H3 eq_refl). lia. }
  rewrite decide_False by (intros ?; assert (false = true) by (apply H3; lia); done).
  destruct (Qle_bool (1 # 4) _).
  { rewrite decide_True; [done|]. apply proj1 in H4. specialize (H4 eq_refl). lia. }
  rewrite decide_False by (intros ?; assert (false = true) by (apply H4; lia); done).
  done.
Qed.








End overlap_more.

(** ** Reading a file: columns, names and errors *)

Section reading.
Import GroupSchedulerApp.
















End reading.

(** ** The list of participants and the window of one participant *)

Section participants.
Import GroupSchedulerApp.

Lemma update_overlaps_frame (a : t) :
  let a' := (update_overlaps a).1 in
  name_entry a' = name_entry a ∧ schedule_canvas a' = schedule_canvas a
  ∧ loaded_listbox a' = loaded_listbox a.
Proof.
  unfold update_overlaps. destruct (loaded_schedules a); [done|].
  by destruct (insert_slots _ _).
Qed.

Lemma load_file_frame (a : t) (f : file) :
  let a' := (load_file a f).1 in
  name_entry a' = name_entry a ∧ schedule_canvas a' = schedule_canvas a
  ∧ (loaded_listbox a = listbox_line <$> loaded_schedules a →
     loaded_listbox a' = listbox_line <$> loaded_schedules a').
Proof.
  destruct (load_file_loaded a f) as [->|(name & sched & name' & _ & _ & _ & _ & ->)];
    [done|].
  simpl. split_and!; [done..|]. intros ->. by rewrite fmap_app.
Qed.

Lemma load_files_frame (a : t) (files : list file) :
  let a' := (load_files a files).1 in
  name_entry a' = name_entry a ∧ schedule_canvas a' = schedule_canvas a
  ∧ (loaded_listbox a = listbox_line <$> loaded_schedules a →
     loaded_listbox a' = listbox_line <$> loaded_schedules a').
Proof.
  revert a. induction files as [|f files IH]; intros a; [done|].
  simpl. pose proof (load_file_frame a f) as (Hn & Hc & Hl).
  destruct (load_file a f) as [a1 r1]. simpl in *.
  specialize (IH a1) as (Hn' & Hc' & Hl').
  destruct (load_files a1 files) as [a2 r2]. simpl in *.
  split_and!; [congruence..|]. intros Ha. by apply Hl', Hl.
Qed.

Lemma step_frame (a : t) (act : action) :
  (loaded_listbox a = listbox_line <$> loaded_schedules a →
   loaded_listbox (step a act) = listbox_line <$> loaded_schedules (step a act))
  ∧ ((∃ events, schedule_canvas a = foldl ScheduleCanvas.handle
                                      (ScheduleCanvas.init true) events) →
     ∃ events, schedule_canvas (step a act)
               = foldl ScheduleCanvas.handle (ScheduleCanvas.init true) events).
Proof.
  destruct act as [text|e|files|]; simpl; try done.
  - split; [done|]. intros [events ->]. exists (events ++ [e]).
    by rewrite foldl_app.
  - unfold load_schedules. destruct files as [|f files]; [done|].
    pose proof (load_files_frame a (f :: files)) as (_ & Hc & Hl).
    destruct (load_files a (f :: files)) as [a1 r1]. simpl in Hc, Hl.
    pose proof (update_overlaps_frame a1) as (_ & Hc' & Hl').
    pose proof (update_overlaps_loaded a1) as Hs.
    destruct (update_overlaps a1) as [a2 r2]. simpl in *.
    rewrite Hl', Hs, Hc', Hc. done.
Qed.

(** The list box shows the registry, and the canvas of the first tab is
    where the events of the session have brought it. *)
Lemma run_frame (acts : list action) :
  loaded_listbox (run acts) = listbox_line <$> loaded_schedules (run acts)
  ∧ ∃ events, schedule_canvas (run acts)
              = foldl ScheduleCanvas.handle (ScheduleCanvas.init true) events.
Proof.
  unfold run.
  cut (loaded_listbox init = listbox_line <$> loaded_schedules init
       ∧ ∃ events, schedule_canvas init
                   = foldl ScheduleCanvas.handle (ScheduleCanvas.init true) events).
  { generalize init. induction acts as [|act acts IH]; intros a Ha; [done|].
    simpl. apply IH. destruct Ha as [Hl Hc].
    split; by apply (step_frame a act). }
  split; [done|]. by exists [].
Qed.

Lemma get_lookup {V : Type} (d : Py.dict string V) (i : nat) (k : string) (v : V) :
  NoDup (Py.keys d) → d !! i = Some (k, v) → Py.get d k = Some v.
Proof.
  unfold Py.keys. revert i. induction d as [|[k' v'] d IH]; intros i Hnd Hi.
  { by destruct i. }
  rewrite fmap_cons in Hnd. apply NoDup_cons in Hnd as [Hk' Hnd]. simpl.
  destruct i as [|i]; simpl in Hi.
  - injection Hi as -> ->. by rewrite decide_True.
  - rewrite decide_False; [by apply (IH i)|].
    intros ->. apply Hk', list_elem_of_fmap. exists (k, v).
    split; [done|]. by eapply list_elem_of_lookup_2.
Qed.

Lemma append_assoc (s1 s2 s3 : string) :
  (s1 +:+ s2) +:+ s3 = s1 +:+ s2 +:+ s3.
Proof.
  induction s1 as [|c s1 IH]; [done|].
  change (String c ((s1 +:+ s2) +:+ s3) = String c (s1 +:+ s2 +:+ s3)).
  by f_equal.
Qed.

Lemma prefix_cons (a b : ascii) (s1 s2 : string) :
  String.prefix (String a s1) (String b s2)
  = if decide (a = b) then String.prefix s1 s2 else false.
Proof. simpl. destruct (ascii_dec a b); by case_decide. Qed.

(** [" ("] begins with a space and goes on with another character, so its
    first occurrence in a line [name (n slots)] is the written one unless
    the name has one of its own. *)
Lemma split_first_paren (name rest : string) :
  Py.occurs " (" name = false →
  Py.split_first " (" (name +:+ " (" +:+ rest) = name.
Proof.
  induction name as [|c name IH]; [by destruct rest|].
  intros Hocc. cbn [Py.occurs] in Hocc.
  apply orb_false_iff in Hocc as [Hpre Hocc].
  change (String c name +:+ " (" +:+ rest)
    with (String c (name +:+ " (" +:+ rest)).
  cbn [Py.split_first].
  assert (String.prefix " (" (String c (name +:+ " (" +:+ rest)) = false) as ->.
  { rewrite prefix_cons in Hpre |- *. case_decide as Hc; [|done]. subst c.
    destruct name as [|c' name].
    - change ("" +:+ " (" +:+ rest) with (String " " (String "(" rest)).
      rewrite prefix_cons. by rewrite decide_False.
    - change (String c' name +:+ " (" +:+ rest)
        with (String c' (name +:+ " (" +:+ rest)).
      rewrite prefix_cons in Hpre |- *. case_decide; [|done].
      by destruct name. }
  f_equal. by apply IH.
Qed.

(** X12.  In every state of a session the list box shows the registry: one
    line per participant, in the order of loading, made of the name and of
    the number of rows of the schedule.  The names are distinct, and no
    participant has an empty name or an empty schedule. *)
Theorem listbox_shows_registry (acts : list action) :
  let a := run acts in
  loaded_listbox a = listbox_line <$> loaded_schedules a
  ∧ length (loaded_listbox a) = length (loaded_schedules a)
  ∧ NoDup (Py.keys (loaded_schedules a))
  ∧ ∀ name sched, (name, sched) ∈ loaded_schedules a → name ≠ "" ∧ sched ≠ [].
Proof.
  intros a. destruct (run_frame acts) as [Hl _].
  destruct (run_consistent acts) as [_ [Hnd Hne]].
  split_and!; [done| |done..]. fold a in Hl. by rewrite Hl, length_fmap.
Qed.

(** X13.  Selecting the line of a participant whose name does not hold
    [" ("] opens the window of that participant: the title and the heading
    name the participant, and the canvas, which cannot be edited, has
    exactly the cells of the imported schedule selected; the mouse changes
    nothing on it. *)
Theorem selection_opens_participant (acts : list action) (index : nat)
    (name : string) (sched : list cell) :
  loaded_schedules (run acts) !! index = Some (name, sched) →
  Py.occurs " (" name = false →
  ∃ p,
    on_participant_selected (run acts) (Some index) = Some p
    ∧ title p = "Schedule: " +:+ name
    ∧ heading p = "Availability for " +:+ name
    ∧ (∀ c, ScheduleCanvas.selected (p_canvas p) c = true ↔ c ∈ sched)
    ∧ ∀ events, Forall (λ e, e ≠ ScheduleCanvas.ClearAll) events →
        foldl ScheduleCanvas.handle (p_canvas p) events = p_canvas p.
Proof.
  intros Hi Hocc. destruct (run_frame acts) as [Hl _].
  destruct (run_consistent acts) as [_ [Hnd _]].
  exists (show_participant_popup name sched). split_and!; [|done..| |].
  - unfold on_participant_selected. unfold Py.dict in Hi.
    rewrite Hl, list_lookup_fmap, Hi. simpl.
    unfold listbox_line. simpl. rewrite split_first_paren by done.
    by rewrite (get_lookup _ index name sched Hnd Hi).
  - intros c. unfold ScheduleCanvas.selected, show_participant_popup, p_canvas.
    rewrite (lookup_set_schedule_data (ScheduleCanvas.init false) sched c).
    by case_decide.
  - intros events Hmouse. simpl.
    induction Hmouse as [|e events He _ IH]; [done|]. simpl.
    by destruct e.
Qed.

Lemma selection_opens_participant_witness :
  let acts :=
    [LoadFiles [("ann.csv",
                 Some (λ _, [["username"; "day"; "hour"]; ["Ann"; "0"; "9"]]))]] in
  ∃ p,
    on_participant_selected (run acts) (Some 0%nat) = Some p
    ∧ title p = "Schedule: " +:+ "Ann"
    ∧ heading p = "Availability for " +:+ "Ann"
    ∧ (∀ c, ScheduleCanvas.selected (p_canvas p) c = true ↔ c ∈ [(0, 9)])
    ∧ ∀ events, Forall (λ e, e ≠ ScheduleCanvas.ClearAll) events →
        foldl ScheduleCanvas.handle (p_canvas p) events = p_canvas p.
Proof.
  intros acts.
  apply (selection_opens_participant acts 0 "Ann" [(0, 9)]); reflexivity.
Defined.

(** X14.  The name is cut at the first [" ("] of the line.  For a
    participant whose own name holds [" ("] the selection looks up the part
    of the name before it: the window of that other participant opens when
    the registry has one, and nothing happens otherwise; the schedule of the
    selected participant cannot be opened. *)
Theorem selection_cuts_name (acts : list action) (index : nat)
    (before after : string) (sched : list cell) :
  loaded_schedules (run acts) !! index
  = Some (before +:+ " (" +:+ after, sched) →
  Py.occurs " (" before = false →
  on_participant_selected (run acts) (Some index)
  = (other ← Py.get (loaded_schedules (run acts)) before;
     Some (show_participant_popup before other))
  ∧ (before ∉ Py.keys (loaded_schedules (run acts)) →
     on_participant_selected (run acts) (Some index) = None).
Proof.
  intros Hi Hocc. destruct (run_frame acts) as [Hl _].
  assert (on_participant_selected (run acts) (Some index)
          = (other ← Py.get (loaded_schedules (run acts)) before;
             Some (show_participant_popup before other))) as Hsel.
  { unfold on_participant_selected. unfold Py.dict in Hi.
    rewrite Hl, list_lookup_fmap, Hi. simpl.
    unfold listbox_line. simpl.
    rewrite !append_assoc.
    rewrite split_first_paren by done.
    by destruct (Py.get _ before). }
  split; [done|]. intros Hnew. rewrite Hsel.
  apply get_None in Hnew. by rewrite Hnew.
Qed.

Lemma selection_cuts_name_witness :
  let acts :=
    [LoadFiles [("ann.csv",
                 Some (λ _, [["username"; "day"; "hour"]; ["Ann (work)"; "0"; "9"]]))]] in
  on_participant_selected (run acts) (Some 0%nat)
  = (other ← Py.get (loaded_schedules (run acts)) "Ann";
     Some (show_participant_popup "Ann" other))
  ∧ ("Ann" ∉ Py.keys (loaded_schedules (run acts)) →
     on_participant_selected (run acts) (Some 0%nat) = None).
Proof.
  intros acts.
  apply (selection_cuts_name acts 0 "Ann" "work)" [(0, 9)]); reflexivity.
Defined.

End participants.

(** ** Names of participants, perfect matches and their tree *)

Section matches.
Import GroupSchedulerApp.

Lemma elem_of_nth_names (base x : string) (n : nat) :
  x ∈ nth_name base <$> seq 0 n ↔ ∃ i, (i < n)%nat ∧ x = nth_name base i.
Proof.
  rewrite list_elem_of_fmap. split.
  - intros (i & -> & Hi). apply elem_of_seq in Hi. exists i. split; [lia|done].
  - intros (i & Hi & ->). exists i. split; [done|]. apply elem_of_seq. lia.
Qed.

Lemma nth_name_inj (base : string) (i j : nat) :
  nth_name base i = nth_name base j → i = j.
Proof.
  unfold nth_name. repeat case_decide; subst; try done.
  - intros Heq. symmetry in Heq. by apply candidate_ne_base in Heq.
  - intros Heq. by apply candidate_ne_base in Heq.
  - intros Heq. apply candidate_inj in Heq. lia.
Qed.

(** With the names [base], [base_1], ..., [base_(n-1)] taken, the loop
    stops at [base_n]. *)
Lemma free_username_nth (loaded : Py.dict string (list cell))
    (base name' : string) (n : nat) :
  Py.keys loaded = nth_name base <$> seq 0 n →
  free_username (length loaded) loaded base base 1 = Some name' →
  name' = nth_name base n.
Proof.
  intros Hkeys Hfree.
  apply free_username_Some in Hfree as [Hnew [[Hbase ->]|(Hbase & j & Hj & -> & Hall)]].
  - destruct n as [|n]; [done|]. destruct Hbase. rewrite Hkeys.
    apply elem_of_nth_names. exists 0%nat. split; [lia|done].
  - rewrite Hkeys in Hnew, Hbase, Hall.
    assert (n ≠ 0%nat) as Hn.
    { intros ->. by apply elem_of_nil in Hbase. }
    assert (Z.of_nat n ≤ j) as Hge.
    { destruct (decide (Z.of_nat n ≤ j)) as [|Hlt]; [done|]. destruct Hnew.
      apply elem_of_nth_names. exists (Z.to_nat j). split; [lia|].
      unfold nth_name. rewrite decide_False by lia. by rewrite Z2Nat.id by lia. }
    assert (j ≤ Z.of_nat n) as Hle.
    { destruct (decide (j ≤ Z.of_nat n)) as [|Hgt]; [done|].
      specialize (Hall (Z.of_nat n) ltac:(lia)).
      apply elem_of_nth_names in Hall as (i & Hi & Heq).
      assert (nth_name base n = nth_name base i) as Hinj.
      { rewrite <- Heq. unfold nth_name. by rewrite decide_False. }
      apply nth_name_inj in Hinj. lia. }
    unfold nth_name. rewrite decide_False by done. f_equal. lia.
Qed.

Lemma load_files_same_name (base : string) (files : list file)
    (scheds : list (list cell)) (a : t) (n : nat) :
  base ≠ "" →
  Forall2 (λ f sched, read_file f = Py.Ok (Some base, sched) ∧ sched ≠ [])
    files scheds →
  Py.keys (loaded_schedules a) = nth_name base <$> seq 0 n →
  loaded_schedules (load_files a files).1
  = loaded_schedules a ++ imap (λ i sched, (nth_name base (n + i), sched)) scheds
  ∧ (load_files a files).2 = [].
Proof.
  intros Hbase Hfiles. revert a n.
  induction Hfiles as [|f sched files scheds [Hread Hne] _ IH]; intros a n Hkeys.
  { simpl. by rewrite app_nil_r. }
  simpl.
  destruct (load_file_add a f base sched Hread Hbase Hne) as (name' & Hfree & ->).
  apply (free_username_nth _ _ _ n Hkeys) in Hfree as ->.
  assert (Py.keys (loaded_schedules a ++ [(nth_name base n, sched)])
          = nth_name base <$> seq 0 (S n)) as Hkeys'.
  { unfold Py.keys in *. by rewrite fmap_app, Hkeys, seq_S, fmap_app. }
  match goal with
  | |- context [load_files ?a1 files] =>
      destruct (IH a1 (S n) Hkeys') as [Hl Hr];
      destruct (load_files a1 files) as [a2 r2]
  end.
  simpl in Hl, Hr. simpl. rewrite Hl, Hr.
  split; [|done]. rewrite <- app_assoc. f_equal. simpl.
  rewrite Nat.add_0_r. f_equal. apply imap_ext. intros i x _. simpl.
  by rewrite Nat.add_succ_r.
Qed.

(** X15.  Files that all give the same name are registered, in the order
    of loading, under the name itself, then the name with [_1], [_2] and so
    on: the [i]-th of them gets the suffix [_i], each with its own schedule,
    and no message is shown. *)
Theorem load_same_name_sequence (a : t) (base : string) (files : list file)
    (scheds : list (list cell)) :
  loaded_schedules a = [] → base ≠ "" →
  Forall2 (λ f sched, read_file f = Py.Ok (Some base, sched) ∧ sched ≠ [])
    files scheds →
  loaded_schedules (load_schedules a files).1
  = imap (λ i sched, (nth_name base i, sched)) scheds
  ∧ (∀ i sched, scheds !! i = Some sched →
     Py.get (loaded_schedules (load_schedules a files).1) (nth_name base i)
     = Some sched).
Proof.
  intros Hempty Hbase Hfiles.
  assert (loaded_schedules (load_schedules a files).1
          = imap (λ i sched, (nth_name base i, sched)) scheds) as Hloaded.
  { unfold load_schedules. destruct Hfiles as [|f sched files scheds Hf Hfiles].
    { simpl. by rewrite Hempty. }
    destruct (load_files_same_name base (f :: files) (sched :: scheds) a 0 Hbase)
      as [Hl _]; [by constructor|by rewrite Hempty|].
    destruct (load_files a (f :: files)) as [a1 r1].
    pose proof (update_overlaps_loaded a1) as Hu.
    destruct (update_overlaps a1) as [a2 r2]. simpl in *.
    by rewrite Hu, Hl, Hempty. }
  split; [done|]. intros i sched Hi. rewrite Hloaded.
  apply (get_lookup _ i).
  - unfold Py.keys. rewrite fmap_imap.
    apply NoDup_alt. intros j1 j2 x.
    rewrite !list_lookup_imap. intros H1 H2.
    destruct (scheds !! j1) as [s1|] eqn:E1; [|done].
    destruct (scheds !! j2) as [s2|] eqn:E2; [|done].
    simpl in *. injection H1 as <-. injection H2 as H2.
    by apply nth_name_inj in H2.
  - unfold Py.dict. rewrite list_lookup_imap. by rewrite Hi.
Qed.

Lemma load_same_name_sequence_witness :
  let f := λ hour : string,
    ("alice.csv", Some (λ _ : ascii, [["username"; "day"; "hour"]; ["Alice"; "0"; hour]]))
    : file in
  loaded_schedules (load_schedules init [f "9"; f "10"; f "11"]).1
  = [("Alice", [(0, 9)]); ("Alice_1", [(0, 10)]); ("Alice_2", [(0, 11)])].
Proof.
  intros f.
  apply (load_same_name_sequence init "Alice" [f "9"; f "10"; f "11"]
           [[(0, 9)]; [(0, 10)]; [(0, 11)]]).
  - reflexivity.
  - discriminate.
  - repeat constructor; discriminate.
Defined.

Lemma getitem_DAYS_wrap (day : Z) :
  -7 ≤ day < 7 →
  Py.getitem ScheduleCanvas.DAYS day
  = Py.Ok (default "" (ScheduleCanvas.DAYS !! Z.to_nat (day `mod` 7))).
Proof.
  intros Hd.
  assert (day = -7 ∨ day = -6 ∨ day = -5 ∨ day = -4 ∨ day = -3 ∨ day = -2
          ∨ day = -1 ∨ day = 0 ∨ day = 1 ∨ day = 2 ∨ day = 3 ∨ day = 4
          ∨ day = 5 ∨ day = 6) as Hcases by lia.
  repeat destruct Hcases as [->|Hcases]; try done. by subst.
Qed.

Lemma getitem_DAYS_outside (day : Z) :
  ¬ (-7 ≤ day < 7) → Py.getitem ScheduleCanvas.DAYS day = Py.Raise Py.IndexError.
Proof.
  intros Hd. unfold Py.getitem.
  change (Z.of_nat (length ScheduleCanvas.DAYS)) with 7.
  destruct (day <? 0) eqn:Hneg; zbool.
  - destruct ((0 <=? day + 7) && (day + 7 <? 7)) eqn:Hin; [|done]. zbool. lia.
  - destruct ((0 <=? day) && (day <? 7)) eqn:Hin; [|done]. zbool. lia.
Qed.

(** The loop that fills the tree writes one row per slot up to the first
    slot whose day [DAYS] cannot be indexed with, and raises there. *)
Lemma insert_slots_rows (rows : list (string * string)) (slots : list cell) :
  insert_slots rows slots
  = match list_find (λ c, ¬ day_index_ok c) slots with
    | None => (rows ++ (tree_row <$> slots), None)
    | Some (i, _) => (rows ++ (tree_row <$> take i slots), Some Py.IndexError)
    end.
Proof.
  revert rows. induction slots as [|[day hour] slots IH]; intros rows.
  { simpl. by rewrite app_nil_r. }
  cbn [insert_slots list_find]. case_decide as Hd.
  - unfold day_index_ok in Hd. simpl in Hd.
    rewrite getitem_DAYS_outside by done. simpl. by rewrite app_nil_r.
  - unfold day_index_ok in Hd. simpl in Hd.
    rewrite getitem_DAYS_wrap by done. rewrite IH.
    destruct (list_find _ slots) as [[i c]|]; simpl;
      by rewrite <- app_assoc.
Qed.

(** X16.  The tree of perfect matches lists the perfect matches in
    ascending order, each with the name of its day and its hour as
    [HH:00]; a negative day from -7 to -1 is shown under the name that
    Python's indexing from the end gives it.  At the first perfect match
    whose day is outside -7..6 the refresh stops with an [IndexError]: the
    tree keeps the rows before it, while the counter has the number of all
    perfect matches. *)
Theorem update_overlaps_tree (a : t) :
  loaded_schedules a ≠ [] →
  let slots := full_overlap_slots (count_overlaps (loaded_schedules a))
                 (Z.of_nat (length (loaded_schedules a))) in
  lbl_match_count (update_overlaps a).1 = Py.str (Z.of_nat (length slots))
  ∧ match list_find (λ c, ¬ day_index_ok c) slots with
    | None =>
        tree (update_overlaps a).1 = tree_row <$> slots
        ∧ (update_overlaps a).2 = []
    | Some (i, _) =>
        tree (update_overlaps a).1 = tree_row <$> take i slots
        ∧ (update_overlaps a).2 = [traceback Py.IndexError]
    end.
Proof.
  intros Hne slots. unfold update_overlaps.
  destruct (loaded_schedules a) as [|entry loaded] eqn:Hl; [done|].
  fold slots. rewrite (insert_slots_rows [] slots).
  destruct (list_find _ slots) as [[i c]|]; done.
Qed.

Lemma update_overlaps_tree_witness :
  let a := (load_files init
              [("ann.csv", Some (λ _, [["username"; "day"; "hour"];
                                       ["Ann"; "-1"; "9"]; ["Ann"; "2"; "14"];
                                       ["Ann"; "7"; "9"]; ["Ann"; "8"; "9"]]))]).1 in
  lbl_match_count (update_overlaps a).1 = "4"
  ∧ tree (update_overlaps a).1 = [("Sunday", "09:00"); ("Wednesday", "14:00")]
  ∧ (update_overlaps a).2 = [traceback Py.IndexError].
Proof.
  intros a.
  assert (loaded_schedules a ≠ []) as Hne by discriminate.
  pose proof (update_overlaps_tree a Hne) as [Hcount Htree].
  split; [exact Hcount|]. exact Htree.
Defined.

Lemma occurrences_NoDup (c : cell) (sched : list cell) :
  NoDup sched → occurrences c sched = if decide (c ∈ sched) then 1%nat else 0%nat.
Proof.
  induction 1 as [|c' sched Hc' _ IH]; [done|].
  rewrite occurrences_cons, IH. destruct (decide (c' = c)) as [->|Hne].
  - rewrite decide_False by done. rewrite decide_True; [done|]. by left.
  - destruct (decide (c ∈ sched)) as [Hin|Hout].
    + rewrite decide_True; [done|]. by right.
    + rewrite decide_False; [done|]. intros [?|?]%elem_of_cons; done.
Qed.

Lemma listed_NoDup (loaded : list (string * list cell)) (c : cell) :
  (∀ name sched, (name, sched) ∈ loaded → NoDup sched) →
  listed loaded c = length (filter (λ entry, c ∈ entry.2) loaded).
Proof.
  unfold listed, Py.dict in *.
  induction loaded as [|[name sched] loaded IH]; intros Hnd; [done|].
  cbn [sum_list_with]. rewrite IH.
  - change ((name, sched).2) with sched.
    rewrite (occurrences_NoDup c sched) by (apply (Hnd name); by left).
    destruct (decide (c ∈ sched)).
    + by rewrite filter_cons_True.
    + by rewrite filter_cons_False.
  - intros name' sched' Hin. apply (Hnd name'). by right.
Qed.

Lemma length_filter_all {A : Type} (P : A → Prop) `{∀ x, Decision (P x)}
    (l : list A) :
  length (filter P l) = length l ↔ Forall P l.
Proof.
  induction l as [|x l IH]; [by split; [constructor|]|].
  destruct (decide (P x)) as [HP|HP].
  - rewrite filter_cons_True by done. simpl. rewrite Forall_cons.
    split; [intros [= Hlen]; split; [done|by apply IH]|].
    intros [_ Hall]. f_equal. by apply IH.
  - rewrite filter_cons_False by done. rewrite Forall_cons.
    pose proof (length_filter P l). simpl. split; [lia|by intros [? _]].
Qed.

(** X17.  When no schedule lists a cell twice, the count of a cell is the
    number of participants who have it, which is at most the number of
    participants, and the perfect matches are exactly the cells that every
    participant has. *)
Theorem full_matches_are_common_cells (loaded : list (string * list cell)) :
  loaded ≠ [] →
  (∀ name sched, (name, sched) ∈ loaded → NoDup sched) →
  let counts := count_overlaps loaded in
  let total := Z.of_nat (length loaded) in
  ∀ c,
    default 0 (counts !! c)
    = Z.of_nat (length (filter (λ entry, c ∈ entry.2) loaded))
    ∧ 0 ≤ default 0 (counts !! c) ≤ total
    ∧ (c ∈ full_overlap_slots counts total
       ↔ ∀ name sched, (name, sched) ∈ loaded → c ∈ sched).
Proof.
  intros Hne Hnd counts total c. unfold counts, total, Py.dict in *.
  pose proof (listed_NoDup loaded c Hnd) as Hlisted.
  pose proof (length_filter (λ entry : string * list cell, c ∈ entry.2) loaded) as Hle.
  assert (default 0 (count_overlaps loaded !! c)
          = Z.of_nat (length (filter (λ entry, c ∈ entry.2) loaded))) as Hcount.
  { rewrite lookup_count_overlaps, Hlisted. case_decide as H0; simpl; [|done].
    by rewrite H0. }
  split; [done|]. split; [rewrite Hcount; lia|].
  rewrite elem_of_full_overlap_slots, lookup_count_overlaps, Hlisted.
  split.
  - case_decide as H0; [done|]. intros [= Heq]. apply Nat2Z.inj in Heq.
    apply length_filter_all in Heq.
    intros name sched Hin. by apply (proj1 (Forall_forall _ _) Heq (name, sched)).
  - intros Hall.
    assert (length (filter (λ entry : string * list cell, c ∈ entry.2) loaded)
            = length loaded) as ->.
    { apply length_filter_all, Forall_forall. intros [name sched] Hin.
      by apply (Hall name). }
    rewrite decide_False; [done|]. by destruct loaded.
Qed.

Lemma full_matches_are_common_cells_witness :
  let loaded := [("Ann", [(0, 9); (0, 10)]); ("Bob", [(0, 10); (1, 9)])] in
  default 0 (count_overlaps loaded !! (0, 10)) = 2
  ∧ ((0, 10) ∈ full_overlap_slots (count_overlaps loaded) 2
     ↔ ∀ name sched, (name, sched) ∈ loaded → (0, 10) ∈ sched).
Proof.
  intros loaded.
  assert (loaded ≠ []) as Hne by discriminate.
  assert (∀ name sched, (name, sched) ∈ loaded → NoDup sched) as Hnd.
  { intros name sched Hin.
    apply elem_of_cons in Hin as [[= _ ->]|Hin];
      [by apply (bool_decide_unpack _); vm_compute|].
    apply list_elem_of_singleton in Hin as [= _ ->].
    by apply (bool_decide_unpack _); vm_compute. }
  destruct (full_matches_are_common_cells loaded Hne Hnd (0, 10)) as (H1 & _ & H2).
  split; [exact H1|exact H2].
Defined.

End matches.

(** ** The two exports in a session *)

Section exports.
Import GroupSchedulerApp.


Lemma format_1f_whole (total : Z) :
  0 < total → format_1f (inject_Z total / inject_Z total * 100)%Q = "100.0".
Proof.
  intros Ht. destruct total as [|p|p]; try lia.
  unfold format_1f, Qdiv, Qmult, Qinv, inject_Z. cbn [Qnum Qden].
  replace (Z.abs (Z.pos p * 1 * 100) * 10) with (1000 * Z.pos (1 * p * 1)) by lia.
  rewrite Z.div_mul, Z.mod_mul by lia.
  replace (Z.pos p * 1 * 100 <? 0) with false by (symmetry; apply Z.ltb_ge; lia).
  replace (2 * 0 <? Z.pos (1 * p * 1)) with true by (symmetry; apply Z.ltb_lt; lia).
  done.
Qed.


(** X19.  In a session the analysis file agrees with the overlap tab: for
    every cell of the grid the record has the count that the overlap canvas
    draws and the total that the participants counter shows, and a cell that
    is a perfect match has the percentage [100.0%] in the file and the
    darkest green on the canvas. *)
Theorem analysis_agrees_with_display (acts : list action) (filename : string) :
  let a := run acts in
  let w := overlap_canvas a in
  loaded_schedules a ≠ [] → filename ≠ "" →
  ∃ rows,
    export_analysis a filename
    = ([showinfo ("Analysis exported to:" +:+ nl +:+ filename)],
       Some (filename, analysis_header :: rows))
    ∧ ∀ day hour, 0 ≤ day < 7 → 9 ≤ hour < 20 →
        ∃ day_name pct,
          rows !! Z.to_nat (11 * day + (hour - 9))
          = Some [Py.str day; day_name; Py.str hour;
                  Py.str (OverlapCanvas.count_at w (day, hour));
                  lbl_part_count a; pct]
          ∧ ((day, hour)
               ∈ full_overlap_slots (count_overlaps (loaded_schedules a))
                   (Z.of_nat (length (loaded_schedules a))) →
             pct = "100.0%"
             ∧ OverlapCanvas.get_color_for_count w
                 (OverlapCanvas.count_at w (day, hour))
               = Py.Ok (band_color FULL)).
Proof.
  intros a w Hne Hfile.
  destruct (run_consistent acts) as [(Hw & Hpart & _) _]. fold a in Hw, Hpart.
  set (loaded := loaded_schedules a) in *.
  set (total := Z.of_nat (length loaded)) in *.
  set (counts := count_overlaps loaded) in *.
  assert (0 < total) as Ht.
  { unfold total. destruct loaded; [done|]. simpl. lia. }
  exists ((λ c, analysis_record (default 0 (counts !! c)) total c) <$> grid_cells).
  split.
  - rewrite (export_analysis_loaded a filename Hne Hfile).
    fold loaded total counts.
    by rewrite (write_analysis_in_grid _ counts total grid_cells Ht grid_cells_day).
  - intros day hour Hday Hhour.
    rewrite list_lookup_fmap, (grid_cells_lookup day hour Hday Hhour). simpl.
    unfold analysis_record. simpl. do 2 eexists. split.
    + unfold w. rewrite Hw, Hpart. unfold OverlapCanvas.count_at. simpl.
      reflexivity.
    + intros Hfull. apply elem_of_full_overlap_slots in Hfull.
      rewrite Hfull. simpl. rewrite (format_1f_whole total Ht). split; [done|].
      unfold w. rewrite Hw. unfold OverlapCanvas.count_at. simpl. rewrite Hfull.
      simpl.
      rewrite (get_color_for_count_cases (OverlapCanvas.mk counts total) total)
        by (simpl; lia).
      simpl. by rewrite decide_True.
Qed.

Lemma analysis_agrees_with_display_witness :
  let a := run [LoadFiles [("ann.csv",
                            Some (λ _, [["username"; "day"; "hour"];
                                        ["Ann"; "0"; "9"]]))]] in
  ∃ rows,
    export_analysis a "schedule_analysis.tsv"
    = ([showinfo ("Analysis exported to:" +:+ nl +:+ "schedule_analysis.tsv")],
       Some ("schedule_analysis.tsv", analysis_header :: rows))
    ∧ ∀ day hour, 0 ≤ day < 7 → 9 ≤ hour < 20 →
        ∃ day_name pct,
          rows !! Z.to_nat (11 * day + (hour - 9))
          = Some [Py.str day; day_name; Py.str hour;
                  Py.str (OverlapCanvas.count_at (overlap_canvas a) (day, hour));
                  lbl_part_count a; pct]
          ∧ ((day, hour)
               ∈ full_overlap_slots (count_overlaps (loaded_schedules a))
                   (Z.of_nat (length (loaded_schedules a))) →
             pct = "100.0%"
             ∧ OverlapCanvas.get_color_for_count (overlap_canvas a)
                 (OverlapCanvas.count_at (overlap_canvas a) (day, hour))
               = Py.Ok (band_color FULL)).
Proof.
  intros a.
  apply (analysis_agrees_with_display
           [LoadFiles [("ann.csv",
                        Some (λ _, [["username"; "day"; "hour"];
                                    ["Ann"; "0"; "9"]]))]]
           "schedule_analysis.tsv"); discriminate.
Defined.

End exports.

(** ** A batch of files and the order of loading *)

Section batches.
Import GroupSchedulerApp.

Lemma load_file_extends (a : t) (f : file) :
  ∃ more,
    loaded_schedules (load_file a f).1 = loaded_schedules a ++ more
    ∧ loaded_listbox (load_file a f).1
      = loaded_listbox a ++ (listbox_line <$> more)
    ∧ (length more + length (load_file a f).2 ≤ 1)%nat
    ∧ ∀ name sched, (name, sched) ∈ more →
        (name ∉ Py.keys (loaded_schedules a)) ∧ name ≠ "" ∧ sched ≠ [].
Proof.
  assert (∃ more : list (string * list cell),
            loaded_schedules a = loaded_schedules a ++ more
            ∧ loaded_listbox a = loaded_listbox a ++ (listbox_line <$> more)
            ∧ (length more + 0 ≤ 1)%nat
            ∧ ∀ name sched, (name, sched) ∈ more →
                (name ∉ Py.keys (loaded_schedules a)) ∧ name ≠ "" ∧ sched ≠ [])
    as Hsame.
  { exists []. rewrite !app_nil_r. split_and!; [done|done|simpl; lia|].
    intros ?? Hin. by apply elem_of_nil in Hin. }
  unfold load_file. destruct (read_file f) as [[[name|] sched]|e]; simpl.
  - destruct name as [|ch name]; [done|]. destruct sched as [|c sched]; [done|].
    destruct (free_username _ _ _ _ _) as [name'|] eqn:Hfree; [|done]. simpl.
    apply free_username_Some in Hfree as [Hnew Hcases].
    exists [(name', c :: sched)]. rewrite (setitem_new _ _ _ Hnew).
    split_and!; [done|done|simpl; lia|].
    intros n s Hin. apply list_elem_of_singleton in Hin as [= -> ->].
    split_and!; [done| |done].
    destruct Hcases as [[_ ->]|(_ & j & _ & -> & _)];
      [done|apply candidate_nonempty].
  - done.
  - exists []. rewrite !app_nil_r. split_and!; [done|done|simpl; lia|].
    intros ?? Hin. by apply elem_of_nil in Hin.
Qed.

Lemma load_files_extends (a : t) (files : list file) :
  ∃ more,
    loaded_schedules (load_files a files).1 = loaded_schedules a ++ more
    ∧ loaded_listbox (load_files a files).1
      = loaded_listbox a ++ (listbox_line <$> more)
    ∧ (length more + length (load_files a files).2 ≤ length files)%nat
    ∧ ∀ name sched, (name, sched) ∈ more →
        (name ∉ Py.keys (loaded_schedules a)) ∧ name ≠ "" ∧ sched ≠ [].
Proof.
  revert a. induction files as [|f files IH]; intros a.
  { exists []. simpl. rewrite !app_nil_r. split_and!; [done..|].
    intros ?? Hin. by apply elem_of_nil in Hin. }
  simpl. destruct (load_file_extends a f) as (more1 & Hl1 & Hb1 & Hn1 & Hk1).
  destruct (load_file a f) as [a1 r1]. simpl in *.
  destruct (IH a1) as (more2 & Hl2 & Hb2 & Hn2 & Hk2).
  destruct (load_files a1 files) as [a2 r2]. simpl in *.
  exists (more1 ++ more2). rewrite Hl2, Hb2, Hl1, Hb1, fmap_app, !app_assoc.
  split_and!; [done|done|rewrite !length_app; lia|].
  intros name sched Hin. apply elem_of_app in Hin as [Hin|Hin]; [by apply Hk1|].
  destruct (Hk2 name sched Hin) as (Hnew & Hname & Hsched).
  split_and!; [|done..]. intros Hold. apply Hnew. rewrite Hl1.
  unfold Py.keys in *. rewrite fmap_app. apply elem_of_app. by left.
Qed.

Lemma listed_Permutation (loaded1 loaded2 : list (string * list cell))
    (c : cell) :
  loaded1 ≡ₚ loaded2 → listed loaded1 c = listed loaded2 c.
Proof.
  unfold listed. induction 1 as [|entry l1 l2 _ IH|e1 e2 l|l1 l2 l3 _ IH1 _ IH2];
    simpl; [done|by rewrite IH|lia|by rewrite IH1].
Qed.

(** X20.  Loading a batch of files never changes what is loaded already:
    the participants and the lines of the list box keep their names,
    schedules and order, and the new ones come after them, under names that
    were free, none of them empty, each with a schedule that is not empty.
    Every file gives at most one participant or one error message. *)
Theorem load_schedules_extends (a : t) (files : list file) :
  ∃ more,
    loaded_schedules (load_schedules a files).1 = loaded_schedules a ++ more
    ∧ loaded_listbox (load_schedules a files).1
      = loaded_listbox a ++ (listbox_line <$> more)
    ∧ (length more + length (load_files a files).2 ≤ length files)%nat
    ∧ ∀ name sched, (name, sched) ∈ more →
        (name ∉ Py.keys (loaded_schedules a)) ∧ name ≠ "" ∧ sched ≠ [].
Proof.
  destruct (load_files_extends a files) as (more & Hl & Hb & Hn & Hk).
  exists more. split_and!; [| |done..].
  - unfold load_schedules. destruct files as [|f files].
    { simpl in *. done. }
    destruct (load_files a (f :: files)) as [a1 r1].
    pose proof (update_overlaps_loaded a1) as Hu.
    destruct (update_overlaps a1) as [a2 r2]. simpl in *. by rewrite Hu.
  - unfold load_schedules. destruct files as [|f files].
    { simpl in *. done. }
    destruct (load_files a (f :: files)) as [a1 r1].
    pose proof (update_overlaps_frame a1) as (_ & _ & Hu).
    destruct (update_overlaps a1) as [a2 r2]. simpl in *. by rewrite Hu.
Qed.

(** X21.  The tally, and with it the perfect matches and what the overlap
    canvas shows, does not depend on the order in which the participants
    were loaded. *)
Theorem tally_order_independent (loaded1 loaded2 : list (string * list cell)) :
  loaded1 ≡ₚ loaded2 →
  count_overlaps loaded1 = count_overlaps loaded2
  ∧ full_overlap_slots (count_overlaps loaded1) (Z.of_nat (length loaded1))
    = full_overlap_slots (count_overlaps loaded2) (Z.of_nat (length loaded2))
  ∧ OverlapCanvas.set_overlaps (count_overlaps loaded1) (Z.of_nat (length loaded1))
    = OverlapCanvas.set_overlaps (count_overlaps loaded2) (Z.of_nat (length loaded2)).
Proof.
  intros Hperm.
  assert (count_overlaps loaded1 = count_overlaps loaded2) as Hcounts.
  { apply map_eq. intros c.
    pose proof (lookup_count_overlaps loaded1 c) as H1.
    pose proof (lookup_count_overlaps loaded2 c) as H2.
    rewrite H1, H2. by rewrite (listed_Permutation loaded1 loaded2 c Hperm). }
  rewrite Hcounts, (Permutation_length Hperm). done.
Qed.

Lemma tally_order_independent_witness :
  let ann := ("Ann", [(0, 9); (0, 10)]) in
  let bob := ("Bob", [(0, 10); (1, 9)]) in
  count_overlaps [ann; bob] = count_overlaps [bob; ann]
  ∧ full_overlap_slots (count_overlaps [ann; bob]) 2
    = full_overlap_slots (count_overlaps [bob; ann]) 2
  ∧ OverlapCanvas.set_overlaps (count_overlaps [ann; bob]) 2
    = OverlapCanvas.set_overlaps (count_overlaps [bob; ann]) 2.
Proof.
  intros ann bob. apply (tally_order_independent [ann; bob] [bob; ann]).
  apply Permutation_swap.
Defined.

End batches.
